(** * Verification of [src/cleaning/data_cleaning.py]

    The script connects to a remote engine ([get_spark]), loads one table
    into a pandas frame, cleans it by a fixed sequence of rules, and writes
    the result twice ([main]).  This development embeds both functions and
    the pandas operations they call, and proves the properties the
    specification states about them.

    Conventions of the embedding:
    - a frame is row-major: the list of column names plus the rows, each
      row carrying its index label (pandas never resets the index here,
      so a label identifies the source row throughout the pipeline);
    - a [Series] is the list of the cells of one column, in row order;
    - numbers are what pandas holds: 64-bit integers, and IEEE 754
      binary64 floats, computed with the operations of [SpecFloat]
      (round to nearest, ties to even); the [NaN] of a float column is
      the missing cell;
    - a timestamp is an instant, counted in nanoseconds since the epoch;
      a date column stores instants as 64-bit counts of ticks, the tick
      (the resolution of [datetime64]) being a parameter of the model, and
      [NaT] is the missing cell;
    - the value-to-timestamp parser of pandas is a parameter of the model;
    - an exception is a [Raise] in the [result] type; the effects of
      [main] (prints and calls to the remote engine) are logged as a
      trace of events, and whether the engine fails a call is a parameter
      of the model. *)

From Stdlib Require Import ZArith QArith Ascii String SpecFloat.
From stdpp Require Import base option list gmap strings.

Open Scope string_scope.
Open Scope list_scope.

(** ** Exceptions and the two monads of the script *)

Inductive exn : Type :=
| RuntimeError (msg : string)
| TypeError
| ValueError
| OverflowError
| AnalysisException (table_name : string).

Inductive result (A : Type) : Type :=
| Ok (a : A)
| Raise (e : exn).
Arguments Ok {A} a.
Arguments Raise {A} e.

#[global] Instance result_ret : MRet result := λ A x, Ok x.
#[global] Instance result_bind : MBind result := λ A B k m,
  match m with
  | Ok a => k a
  | Raise e => Raise e
  end.
#[global] Instance result_fmap : FMap result := λ A B g m,
  match m with
  | Ok a => Ok (g a)
  | Raise e => Raise e
  end.

(** ** Floating-point numbers

    The floats of numpy and pandas are IEEE 754 binary64.  [spec_float] is
    such a value, [NaN] included, and the operations below are those of
    the standard with 53 bits of precision.  A [float64] is a value that
    is not [NaN]: what a cell of a frame can hold, since pandas reads the
    [NaN] of a float column as missing. *)

Definition prec : Z := 53.
Definition emax : Z := 1024.

Definition fadd : spec_float → spec_float → spec_float := SFadd prec emax.
Definition fsub : spec_float → spec_float → spec_float := SFsub prec emax.
Definition fmul : spec_float → spec_float → spec_float := SFmul prec emax.
Definition fdiv : spec_float → spec_float → spec_float := SFdiv prec emax.
Definition fleb : spec_float → spec_float → bool := SFleb.
Definition fltb : spec_float → spec_float → bool := SFltb.

(** The cast of an integer to float64, rounded to nearest. *)
Definition float_of_Z (n : Z) : spec_float := binary_normalize prec emax n 0 false.

(** The float a decimal literal [num / den] of the script denotes. *)
Definition float_lit (num den : Z) : spec_float :=
  fdiv (float_of_Z num) (float_of_Z den).

(** [np.floor] of a finite float, as an integer. *)
Definition floor_float (x : spec_float) : Z :=
  match x with
  | S754_finite s m e => Z.shiftl (if s then Z.neg m else Z.pos m) e
  | _ => 0%Z
  end.

Inductive float64 : Type :=
| Fzero (neg : bool)
| Finf (neg : bool)
| Ffin (neg : bool) (m : positive) (e : Z).

Definition sf (x : float64) : spec_float :=
  match x with
  | Fzero s => S754_zero s
  | Finf s => S754_infinity s
  | Ffin s m e => S754_finite s m e
  end.

Definition of_sf (x : spec_float) : option float64 :=
  match x with
  | S754_zero s => Some (Fzero s)
  | S754_infinity s => Some (Finf s)
  | S754_nan => None
  | S754_finite s m e => Some (Ffin s m e)
  end.

(** The integer a float is equal to, when there is one. *)
Definition float_int (x : float64) : option Z :=
  match x with
  | Fzero _ => Some 0%Z
  | Finf _ => None
  | Ffin s m e =>
      let v := (if s then Z.neg m else Z.pos m) in
      if (0 <=? e)%Z then Some (v * 2 ^ e)%Z
      else if (Z.pos m mod 2 ^ (- e) =? 0)%Z then Some (v / 2 ^ (- e))%Z
      else None
  end.

(** Decimal literals for the tables of the examples: [100], [0.1], ...
    denote the nearest float, as they do in Python. *)
Definition float64_of_number (n : Number.number) : option float64 :=
  match n with
  | Number.Decimal (Decimal.Decimal i f) =>
      let num := Z.of_int (Decimal.app_int i f) in
      let den := (10 ^ Z.of_nat (Decimal.nb_digits f))%Z in
      if ((Z.abs num <? 2 ^ 53) && (den <? 2 ^ 53))%Z
      then of_sf (float_lit num den) else None
  | _ => None
  end.

Definition number_of_float64 (x : float64) : option Number.number := None.

Declare Scope float64_scope.
Delimit Scope float64_scope with float64.
Bind Scope float64_scope with float64.
Number Notation float64 float64_of_number number_of_float64 : float64_scope.

#[global] Instance float64_eq_dec : EqDecision float64.
Proof. solve_decision. Defined.

(** ** Data model *)

(** One value of a frame.  [NA] stands for every missing marker of pandas
    ([None], [NaN], [NaT]); [Int] is a 64-bit integer, [Num] a float, [Ts]
    a timestamp in nanoseconds since the epoch. *)
Inductive cell : Type :=
| NA
| Int (n : Z)
| Num (x : float64)
| Str (s : string)
| Ts (ns : Z).

#[global] Instance cell_eq_dec : EqDecision cell.
Proof. solve_decision. Defined.

Definition Series := list cell.

Record row : Type := Row { label : nat; cells : list cell }.

Record frame : Type := Frame { columns : list string; rows : list row }.

(** A table of the remote engine, before it is converted to pandas. *)
Record table : Type := Table { tcolumns : list string; tdata : list (list cell) }.

(** [spark_df.toPandas()]: the rows get the default index 0, 1, 2, ... *)
Definition toPandas (t : table) : frame :=
  Frame (tcolumns t) (imap Row (tdata t)).

Definition labels (f : frame) : list nat := label <$> rows f.

(** Column names are unique, every row has one cell per column, and index
    labels are unique; all three hold for a frame read from a table. *)
Record wf_frame (f : frame) : Prop := {
  wf_columns : NoDup (columns f);
  wf_width : Forall (λ r, length (cells r) = length (columns f)) (rows f);
  wf_labels : NoDup (labels f)
}.

Record wf_table (t : table) : Prop := {
  wft_columns : NoDup (tcolumns t);
  wft_width : Forall (λ cs, length cs = length (tcolumns t)) (tdata t)
}.

(** ** The pandas operations the script uses *)

Definition isna (c : cell) : bool :=
  match c with NA => true | _ => false end.

Definition notna (c : cell) : bool := negb (isna c).

(** [Index.get_loc]: position of a column name. *)
Fixpoint get_loc (c : string) (cols : list string) : option nat :=
  match cols with
  | [] => None
  | c' :: cs => if String.eqb c c' then Some 0%nat else S <$> get_loc c cs
  end.

(** [c in df.columns] *)
Definition has_column (c : string) (f : frame) : bool :=
  bool_decide (is_Some (get_loc c (columns f))).

Definition cell_at (i : nat) (r : row) : cell := default NA (cells r !! i).

(** The series stored at position [i]. *)
Definition iloc_col (i : nat) (f : frame) : Series := cell_at i <$> rows f.

(** [df[c]] for a column that exists. *)
Definition getitem (c : string) (f : frame) : Series :=
  match get_loc c (columns f) with
  | Some i => iloc_col i f
  | None => []
  end.

(** The cell of row [r] under column [c]. *)
Definition cell_of (c : string) (f : frame) (r : row) : cell :=
  match get_loc c (columns f) with
  | Some i => cell_at i r
  | None => NA
  end.

(** [df[c] = s]: overwrite the column in place, or append a new one. *)
Definition setitem (c : string) (s : Series) (f : frame) : frame :=
  match get_loc c (columns f) with
  | Some i =>
      Frame (columns f)
            (zip_with (λ r v, Row (label r) (<[i:=v]> (cells r))) (rows f) s)
  | None =>
      Frame (columns f ++ [c])
            (zip_with (λ r v, Row (label r) (cells r ++ [v])) (rows f) s)
  end.

(** Boolean indexing [l[mask]]. *)
Fixpoint select {A : Type} (mask : list bool) (l : list A) : list A :=
  match mask, l with
  | b :: mask', x :: l' => if b then x :: select mask' l' else select mask' l'
  | _, _ => []
  end.

(** [df.dropna(how="all")]: keep the rows with at least one value. *)
Definition dropna_all (f : frame) : frame :=
  Frame (columns f) (select ((λ r, existsb notna (cells r)) <$> rows f) (rows f)).

(** [s.isnull().mean()]: the share of missing cells; [NaN] on no rows. *)
Definition count_na (s : Series) : nat := length (List.filter isna s).

Definition isnull_mean (s : Series) : option Q :=
  match s with
  | [] => None
  | _ => Some (Z.of_nat (count_na s) # Pos.of_nat (length s))
  end.

(** [x > y] on floats: false when [x] is [NaN]. *)
Definition nan_gt (x : option Q) (y : Q) : bool :=
  match x with
  | Some v => negb (Qle_bool v y)
  | None => false
  end.

(** [df.isnull().mean() * 100], column by column. *)
Definition missing_pct (f : frame) : list (string * option Q) :=
  imap (λ i c, (c, (λ m, m * 100)%Q <$> isnull_mean (iloc_col i f))) (columns f).

(** [missing_pct[missing_pct > 40].index.tolist()] *)
Definition cols_to_drop (f : frame) : list string :=
  fst <$> List.filter (λ cp, nan_gt cp.2 40) (missing_pct f).

(** [df.drop(columns=names, errors="ignore")]: every column bearing one of
    the names goes; a name that labels no column is ignored. *)
Definition keep_mask (names cols : list string) : list bool :=
  (λ c, negb (bool_decide (c ∈ names))) <$> cols.

Definition drop_columns (names : list string) (f : frame) : frame :=
  let m := keep_mask names (columns f) in
  Frame (select m (columns f))
        ((λ r, Row (label r) (select m (cells r))) <$> rows f).

(** Timestamps: a date column stores each instant as an int64 count of
    ticks; the least int64 is the bit pattern of [NaT]. *)
Definition ts_max : Z := 9223372036854775807.
Definition ts_min : Z := -9223372036854775807.
Definition iNaT : Z := -9223372036854775808.

(** [pd.Timedelta(days=n)] in nanoseconds. *)
Definition Timedelta_days (n : Z) : Z := (n * 86400000000000)%Z.

(** The [errors] argument of [pd.to_datetime]. *)
Inductive errors_policy : Type :=
| errors_raise
| errors_coerce.

(** What the installed pandas does with dates: [resolution] is the length
    of the tick of its date columns in nanoseconds (1 for
    [datetime64[ns]], 1000 for [datetime64[us]]); [parse col v] is the
    instant pandas reads the text or number [v] of the column [col] as,
    [None] when it cannot read it as a date/time. *)
Class DatetimeParser : Type := {
  resolution : positive;
  parse : Series → cell → option Z
}.

Section Parser.

Context {P : DatetimeParser}.

Definition ticks (t : Z) : Z := (t / Z.pos resolution)%Z.

Definition in_bounds (t : Z) : bool :=
  ((ts_min <=? ticks t) && (ticks t <=? ts_max))%Z.

Definition is_NaT (t : Z) : bool := (ticks t =? iNaT)%Z.

Definition parse_cell (col : Series) (c : cell) : option Z :=
  match c with
  | NA => None
  | Ts t => Some t
  | _ => parse col c
  end.

(** [pd.to_datetime(col, errors=_)] on one cell of [col]: a missing cell
    stays missing; a value that does not parse, or parses outside the
    representable range, raises or becomes [NaT] as [errors] says. *)
Definition to_datetime_cell (errors : errors_policy) (col : Series) (c : cell)
    : result cell :=
  let failed :=
    match errors with
    | errors_raise => Raise ValueError
    | errors_coerce => Ok NA
    end in
  match c with
  | NA => Ok NA
  | _ =>
      match parse_cell col c with
      | Some t => if in_bounds t then Ok (Ts t) else failed
      | None => failed
      end
  end.

Definition to_datetime (errors : errors_policy) (s : Series) : result Series :=
  mapM (to_datetime_cell errors s) s.

(** [s + delta] on a datetime series: [NaT] stays [NaT]; the sum is
    taken on int64 with an overflow check, so leaving the range raises,
    but a sum that lands on the bit pattern of [NaT] is [NaT] without an
    error; a cell that is no timestamp raises. *)
Definition add_delta_cell (d : Z) (c : cell) : result cell :=
  match c with
  | NA => Ok NA
  | Ts t =>
      if in_bounds (t + d) then Ok (Ts (t + d)%Z)
      else if is_NaT (t + d) then Ok NA
      else Raise OverflowError
  | _ => Raise TypeError
  end.

Definition add_delta (d : Z) (s : Series) : result Series :=
  mapM (add_delta_cell d) s.

End Parser.

(** [s.fillna(other)] with an aligned series, and with a scalar. *)
Definition fill (c other : cell) : cell := if isna c then other else c.

Definition fillna (s other : Series) : Series := zip_with fill s other.

Definition fillna_value (s : Series) (v : cell) : Series := (λ c, fill c v) <$> s.

(** [s.quantile(q)]: numpy's percentile by linear interpolation, on the
    values that are not missing.  The column is an int64 array when all
    its cells are integers, else a float64 array, with the integers cast;
    a text or a timestamp among the values raises. *)
Fixpoint int_values (s : Series) : option (list Z) :=
  match s with
  | [] => Some []
  | Int n :: s' => cons n <$> int_values s'
  | _ :: _ => None
  end.

Fixpoint numeric_values (s : Series) : result (list spec_float) :=
  match s with
  | [] => Ok []
  | NA :: s' => numeric_values s'
  | Int n :: s' => cons (float_of_Z n) <$> numeric_values s'
  | Num x :: s' => cons (sf x) <$> numeric_values s'
  | _ :: _ => Raise TypeError
  end.

Fixpoint insert_sorted {A : Type} (le : A → A → bool) (x : A) (l : list A) : list A :=
  match l with
  | [] => [x]
  | y :: l' => if le x y then x :: l else y :: insert_sorted le x l'
  end.

Definition sort_values {A : Type} (le : A → A → bool) (l : list A) : list A :=
  foldr (insert_sorted le) [] l.

(** The two neighbours of the position [v] among [n] sorted values, [-1]
    being the last one, as numpy's [_get_indexes] has them. *)
Definition get_indexes (n : nat) (v : spec_float) : Z * Z :=
  if fleb (float_of_Z (Z.of_nat n - 1)) v then ((-1)%Z, (-1)%Z)
  else if fltb v (float_of_Z 0) then (0%Z, 0%Z)
  else (floor_float v, (floor_float v + 1)%Z).

(** [arr[i]] with Python's negative indices. *)
Definition item {A : Type} (l : list A) (d : A) (i : Z) : A :=
  nth (Z.to_nat (if (i <? 0)%Z then Z.of_nat (length l) + i else i)%Z) l d.

(** numpy's [_lerp]: [a + (b - a) * t], taken from [b] when [t >= 0.5];
    [diff] is [b - a] as the array's own subtraction computes it. *)
Definition lerp (a b diff t : spec_float) : spec_float :=
  if fleb (float_lit 5 10) t
  then fsub b (fmul diff (fsub (float_of_Z 1) t))
  else fadd a (fmul diff t).

(** The subtraction of int64 wraps around. *)
Definition wrap64 (z : Z) : Z := ((z + 2 ^ 63) mod 2 ^ 64 - 2 ^ 63)%Z.

Definition percentile {A : Type} (le : A → A → bool) (cast : A → spec_float)
    (sub : A → A → spec_float) (vs : list A) (q : spec_float) : spec_float :=
  match sort_values le vs with
  | [] => S754_nan
  | (v0 :: _) as arr =>
      let virtual := fmul (float_of_Z (Z.of_nat (length arr) - 1)) q in
      let '(previous, next) := get_indexes (length arr) virtual in
      let a := item arr v0 previous in
      let b := item arr v0 next in
      let gamma := fsub virtual (float_of_Z previous) in
      lerp (cast a) (cast b) (sub b a) gamma
  end.

Definition quantile (s : Series) (q : spec_float) : result spec_float :=
  match int_values s with
  | Some ns =>
      Ok (percentile Z.leb float_of_Z (λ b a, float_of_Z (wrap64 (b - a))) ns q)
  | None =>
      vs ← numeric_values s;
      mret (percentile fleb id (λ b a, fsub b a) vs q)
  end.

(** [df[c] >= bound] and [df[c] <= bound], cell by cell: the comparison
    is one of float64, an integer being cast; it is false on a missing
    cell and when the bound is [NaN]. *)
Definition as_float (c : cell) : spec_float :=
  match c with
  | Int n => float_of_Z n
  | Num x => sf x
  | _ => S754_nan
  end.

Definition cell_ge (c : cell) (bound : spec_float) : bool := fleb bound (as_float c).

Definition cell_le (c : cell) (bound : spec_float) : bool := fleb (as_float c) bound.

(** Row comparison of [duplicated]: missing cells count as equal, and
    two numbers are equal when [==] holds of them, that is, when they
    have the same value: the two zeros are equal, and an integer equals
    the float of its value.  [value_of] is the value of a cell in a form
    that is the same for equal values: a number that is neither zero nor
    infinite is an odd mantissa times a power of two. *)
Inductive value : Type :=
| VNA
| VZero
| VInf (neg : bool)
| VDyadic (neg : bool) (m : positive) (e : Z)
| VStr (s : string)
| VTs (ns : Z).

#[global] Instance value_eq_dec : EqDecision value.
Proof. solve_decision. Defined.

Fixpoint odd_part (m : positive) (e : Z) : positive * Z :=
  match m with
  | xO m' => odd_part m' (e + 1)
  | _ => (m, e)
  end.

Definition dyadic (neg : bool) (m : positive) (e : Z) : value :=
  let '(m', e') := odd_part m e in VDyadic neg m' e'.

Definition value_of (c : cell) : value :=
  match c with
  | NA => VNA
  | Int 0 => VZero
  | Int (Z.pos p) => dyadic false p 0
  | Int (Z.neg p) => dyadic true p 0
  | Num (Fzero _) => VZero
  | Num (Finf s) => VInf s
  | Num (Ffin s m e) => dyadic s m e
  | Str s => VStr s
  | Ts t => VTs t
  end.

Definition cell_eqb (a b : cell) : bool := bool_decide (value_of a = value_of b).

Fixpoint cells_eqb (xs ys : list cell) : bool :=
  match xs, ys with
  | [], [] => true
  | x :: xs', y :: ys' => cell_eqb x y && cells_eqb xs' ys'
  | _, _ => false
  end.

(** [df.empty]: an axis of length 0. *)
Definition empty (f : frame) : bool :=
  match columns f, rows f with
  | [], _ => true
  | _, [] => true
  | _, _ => false
  end.

(** [df.duplicated(keep="first")]: a row is flagged when an earlier row
    equals it on all columns. *)
Fixpoint duplicated_from (seen : list row) (rs : list row) : list bool :=
  match rs with
  | [] => []
  | r :: rs' =>
      existsb (λ r', cells_eqb (cells r') (cells r)) seen
        :: duplicated_from (seen ++ [r]) rs'
  end.

Definition duplicated (f : frame) : list bool := duplicated_from [] (rows f).

(** [df.drop_duplicates()]: pandas returns an empty frame as it is, and
    otherwise the rows that are not flagged. *)
Definition drop_duplicates (f : frame) : frame :=
  if empty f then f
  else Frame (columns f) (select (negb <$> duplicated f) (rows f)).

(** ** The cleaning rules of [main], lines 57 to 104 *)

(** What the script prints, one constructor per [print] statement, with
    the values its text is formatted from. *)
Inductive message : Type :=
| MsgConnected
| MsgReading (name : string)
| MsgRowsInSource (n_rows n_cols : nat)
| MsgConverting
| MsgPandasShape (n_rows n_cols : nat)
| MsgDroppingColumns (cols : list string)
| MsgRemovedOutliers (n : nat)
| MsgDroppedDuplicates (n : nat)
| MsgAfterCleaningShape (n_rows n_cols : nat)
| MsgConvertingBack
| MsgWriting (name : string)
| MsgCleanedWritten
| MsgCreating (name : string)
| MsgFeatureWritten
| MsgCompleted.

Record session : Type :=
  Session { host : string; token : string; cluster_id : string; http_path : string }.

Inductive event : Type :=
| Print (m : message)
| PrintErr (e : exn)
| GetOrCreate (s : session)
| ReadTable (name : string)
| Count (name : string)
| ToPandas (name : string)
| CreateDataFrame (df : frame)
| SaveAsTable (name : string) (df : frame)
| SparkStop.

(** A computation with effects: the trace it leaves and how it ends. *)
Definition io (A : Type) : Type := (list event * result A)%type.

#[global] Instance io_ret : MRet io := λ A x, ([], Ok x).
#[global] Instance io_bind : MBind io := λ A B k m,
  match m with
  | (t, Ok a) => let '(t', r) := k a in (t ++ t', r)
  | (t, Raise e) => (t, Raise e)
  end.

Definition emit (e : event) : io unit := ([e], Ok tt).
Definition print (m : message) : io unit := emit (Print m).
Definition lift {A : Type} (r : result A) : io A := ([], r).

Definition trace {A : Type} (m : io A) : list event := m.1.
Definition outcome {A : Type} (m : io A) : result A := m.2.

Definition shape (f : frame) : nat * nat := (length (rows f), length (columns f)).

Definition date_columns : list string := ["pd_dt"; "clm_adjud_ts"; "clm_sys_cret_dt"].

(** Line 93, on the floats of lines 90 to 92. *)
Definition lower_bound (Q1 Q3 : spec_float) : spec_float :=
  let IQR := fsub Q3 Q1 in
  fsub Q1 (fmul (float_lit 15 10) IQR).

Definition upper_bound (Q1 Q3 : spec_float) : spec_float :=
  let IQR := fsub Q3 Q1 in
  fadd Q3 (fmul (float_lit 15 10) IQR).

Definition within (lower upper : spec_float) (c : cell) : bool :=
  cell_ge c lower && cell_le c upper.

(** Line 86. *)
Definition impute_categorical (df : frame) : frame :=
  if has_column "procsr_apprv_pay_by_nm" df then
    setitem "procsr_apprv_pay_by_nm"
            (fillna_value (getitem "procsr_apprv_pay_by_nm" df) (Str "unknown")) df
  else df.

(** Lines 89 to 95. *)
Definition remove_outliers (df : frame) : result frame :=
  if has_column "totl_billd_amt" df then
    Q1 ← quantile (getitem "totl_billd_amt" df) (float_lit 25 100);
    Q3 ← quantile (getitem "totl_billd_amt" df) (float_lit 75 100);
    let lower := lower_bound Q1 Q3 in
    let upper := upper_bound Q1 Q3 in
    mret (Frame (columns df)
                (select (within lower upper <$> getitem "totl_billd_amt" df) (rows df)))
  else mret df.

Section Cleaning.

Context {P : DatetimeParser}.

(** Lines 74 to 76. *)
Definition parse_date_column (df : frame) (col : string) : result frame :=
  if has_column col df then
    s ← to_datetime errors_coerce (getitem col df);
    mret (setitem col s df)
  else mret df.

Fixpoint parse_columns (cols : list string) (df : frame) : result frame :=
  match cols with
  | [] => mret df
  | col :: cols' => df ← parse_date_column df col; parse_columns cols' df
  end.

Definition parse_dates (df : frame) : result frame :=
  parse_columns date_columns df.

(** Line 79. *)
Definition impute_pd_dt (df : frame) : result frame :=
  if has_column "clm_sys_cret_dt" df && has_column "pd_dt" df then
    shifted ← add_delta (Timedelta_days 2) (getitem "clm_sys_cret_dt" df);
    mret (setitem "pd_dt" (fillna (getitem "pd_dt" df) shifted) df)
  else mret df.

(** Line 82. *)
Definition impute_clm_adjud_ts (df : frame) : result frame :=
  if has_column "pd_dt" df && has_column "clm_adjud_ts" df then
    shifted ← add_delta (- Timedelta_days 2) (getitem "pd_dt" df);
    mret (setitem "clm_adjud_ts" (fillna (getitem "clm_adjud_ts" df) shifted) df)
  else mret df.

Definition cleaning (df : frame) : io frame :=
  let df := dropna_all df in
  let cols := cols_to_drop df in
  _ ← (if bool_decide (cols = []) then mret tt else print (MsgDroppingColumns cols));
  let df := drop_columns cols df in
  let df := drop_columns ["authzn_id"] df in
  df ← lift (parse_dates df);
  df ← lift (impute_pd_dt df);
  df ← lift (impute_clm_adjud_ts df);
  let df := impute_categorical df in
  let before := length (rows df) in
  df' ← lift (remove_outliers df);
  _ ← (if has_column "totl_billd_amt" df
       then print (MsgRemovedOutliers (before - length (rows df')))
       else mret tt);
  let before_dup := length (rows df') in
  let out := drop_duplicates df' in
  _ ← print (MsgDroppedDuplicates (before_dup - length (rows out)));
  _ ← print (MsgAfterCleaningShape (shape out).1 (shape out).2);
  mret out.

(** The frames the rules see on the way, as values: after line 76 (the
    date parsing raises nothing, whatever the frame), after line 79,
    after line 86, after line 95, and what the rules return in the end. *)
Definition parsed (df : frame) : frame :=
  let df := dropna_all df in
  let df := drop_columns (cols_to_drop df) df in
  let df := drop_columns ["authzn_id"] df in
  match parse_dates df with
  | Ok df' => df'
  | Raise _ => df
  end.

Definition with_pd_dt (df : frame) : result frame := impute_pd_dt (parsed df).

Definition imputed (df : frame) : result frame :=
  df ← with_pd_dt df;
  df ← impute_clm_adjud_ts df;
  mret (impute_categorical df).

Definition trimmed (df : frame) : result frame :=
  df ← imputed df; remove_outliers df.

Definition cleaned (df : frame) : result frame :=
  drop_duplicates <$> trimmed df.

End Cleaning.

(** ** [get_spark] and [main] *)

(** Truthiness of what [os.getenv] returns: [None] and [""] are false. *)
Definition truthy (v : option string) : bool :=
  match v with
  | Some s => negb (String.eqb s "")
  | None => false
  end.

(** The four variables the docstring of [get_spark] requires. *)
Definition required_vars : list string :=
  ["DATABRICKS_HOST"; "DATABRICKS_TOKEN"; "DATABRICKS_CLUSTER_ID";
   "DATABRICKS_HTTP_PATH"].

Definition missing_msg : string :=
  "Missing one of DATABRICKS_HOST/DATABRICKS_TOKEN/DATABRICKS_CLUSTER_ID/DATABRICKS_HTTP_PATH".

Definition get_spark (environ : gmap string string) : io session :=
  let host := environ !! "DATABRICKS_HOST" in
  let token := environ !! "DATABRICKS_TOKEN" in
  let cluster_id := environ !! "DATABRICKS_CLUSTER_ID" in
  let http_path := environ !! "DATABRICKS_HTTP_PATH" in
  if negb (forallb truthy [host; token; cluster_id; http_path]) then
    lift (Raise (RuntimeError missing_msg))
  else
    let s := Session (default "" host) (default "" token)
                     (default "" cluster_id) (default "" http_path) in
    _ ← emit (GetOrCreate s);
    mret s.

(** The process environment and the tables the remote engine holds. *)
Record world : Type :=
  World { environ : gmap string string; catalog : gmap string table }.

(** Whether the remote engine fails a call, and with which error:
    [fault e] is the exception the call logged as [e] ends with, [None]
    when the engine answers it. *)
Class Engine : Type := { fault : event → option exn }.

Section Main.

Context {P : DatetimeParser} {E : Engine}.

(** A call to the engine: it is logged, and it raises when the engine
    fails it. *)
Definition call (e : event) : io unit :=
  _ ← emit e;
  match fault e with
  | Some x => lift (Raise x)
  | None => mret tt
  end.

(** [spark.read.table(name)] returns a handle on the table.  An engine
    may look the table up at once and fail the call, or only with the
    first action on the handle (Spark Connect does the latter): the
    handle of a table the engine does not hold is [None]. *)
Definition read_table (w : world) (name : string) : io (option table) :=
  _ ← call (ReadTable name);
  mret (catalog w !! name).

(** An action on a handle, such as [spark_df.count()]: a call to the
    engine, which raises on a table the engine does not hold. *)
Definition action (e : event) (name : string) (spark_df : option table) : io table :=
  _ ← call e;
  match spark_df with
  | Some t => mret t
  | None => lift (Raise (AnalysisException name))
  end.

Definition main (w : world) : io unit :=
  let CATALOG := default "workspace" (environ w !! "DATABRICKS_CATALOG") in
  let SCHEMA := default "feature_store_project" (environ w !! "DATABRICKS_SCHEMA") in
  let RAW_TABLE := CATALOG +:+ "." +:+ SCHEMA +:+ ".fct_claim" in
  let CLEAN_TABLE := CATALOG +:+ "." +:+ SCHEMA +:+ ".cleaned_claims" in
  let FEATURE_TABLE :=
    CATALOG +:+ "." +:+ SCHEMA +:+ ".fct_claim_features_after_datacleanup" in
  spark ← get_spark (environ w);
  _ ← print MsgConnected;
  _ ← print (MsgReading RAW_TABLE);
  spark_df ← read_table w RAW_TABLE;
  counted ← action (Count RAW_TABLE) RAW_TABLE spark_df;
  let row_count := length (tdata counted) in
  _ ← print (MsgRowsInSource row_count (length (tcolumns counted)));
  _ ← print MsgConverting;
  fetched ← action (ToPandas RAW_TABLE) RAW_TABLE spark_df;
  let df := toPandas fetched in
  _ ← print (MsgPandasShape (shape df).1 (shape df).2);
  df ← cleaning df;
  _ ← print MsgConvertingBack;
  _ ← call (CreateDataFrame df);
  _ ← print (MsgWriting CLEAN_TABLE);
  _ ← call (SaveAsTable CLEAN_TABLE df);
  _ ← print MsgCleanedWritten;
  _ ← print (MsgCreating FEATURE_TABLE);
  _ ← call (SaveAsTable FEATURE_TABLE df);
  _ ← print MsgFeatureWritten;
  _ ← call SparkStop;
  print MsgCompleted.

(** Lines 125 to 130: report the error on stderr and raise it again. *)
Definition script (w : world) : io unit :=
  match main w with
  | (t, Raise e) => (t ++ [PrintErr e], Raise e)
  | r => r
  end.

End Main.

(** An engine that answers every call. *)
#[global] Instance reliable_engine : Engine := {| fault := λ _, None |}.

(** ** A small parser for the examples

    Dates written [YYYY-MM-DD] are read as midnight of that day; whole
    numbers are read as nanoseconds since the epoch; the resolution is
    the nanosecond. *)

Definition digit (a : Ascii.ascii) : option Z :=
  let n := nat_of_ascii a in
  if (48 <=? n)%nat && (n <=? 57)%nat then Some (Z.of_nat (n - 48)) else None.

Definition number (ds : list Ascii.ascii) : option Z :=
  foldl (λ acc a, n ← acc; d ← digit a; Some (10 * n + d)%Z) (Some 0%Z) ds.

Definition is_leap (y : Z) : bool :=
  ((y mod 4 =? 0) && (negb (y mod 100 =? 0) || (y mod 400 =? 0)))%Z.

Definition days_in_month (y m : Z) : Z :=
  if (m =? 2)%Z then (if is_leap y then 29 else 28)%Z
  else if bool_decide (m ∈ [4; 6; 9; 11]%Z) then 30%Z else 31%Z.

Definition days_from_civil (y m d : Z) : Z :=
  let y' := (if m <=? 2 then y - 1 else y)%Z in
  let era := (y' / 400)%Z in
  let yoe := (y' - era * 400)%Z in
  let doy := ((153 * (if 2 <? m then m - 3 else m + 9) + 2) / 5 + d - 1)%Z in
  let doe := (yoe * 365 + yoe / 4 - yoe / 100 + doy)%Z in
  (era * 146097 + doe - 719468)%Z.

Definition iso_date (s : string) : option Z :=
  match String.list_ascii_of_string s with
  | [y1; y2; y3; y4; dash1; m1; m2; dash2; d1; d2] =>
      if Ascii.eqb dash1 "-" && Ascii.eqb dash2 "-" then
        y ← number [y1; y2; y3; y4];
        m ← number [m1; m2];
        d ← number [d1; d2];
        if ((1 <=? m) && (m <=? 12) && (1 <=? d) && (d <=? days_in_month y m))%Z
        then Some (Timedelta_days (days_from_civil y m d))
        else None
      else None
  | _ => None
  end.

Definition sample_parse (col : Series) (c : cell) : option Z :=
  match c with
  | Str s => iso_date s
  | Int n => Some n
  | Num x => float_int x
  | _ => None
  end.

Definition sample_parser : DatetimeParser :=
  {| resolution := 1; parse := sample_parse |}.

(** The same parser for date columns of microsecond resolution. *)
Definition micro_parser : DatetimeParser :=
  {| resolution := 1000; parse := sample_parse |}.

(** ** Row-wise reading of a column assignment

    Every assignment of the script computes the new column cell by cell
    from the row it sits in; [upd i g] is that assignment on one row. *)

Definition upd (i : nat) (g : row → cell) (r : row) : row :=
  Row (label r) (<[i := g r]> (cells r)).

Definition map_col (i : nat) (g : row → cell) (f : frame) : frame :=
  Frame (columns f) (upd i g <$> rows f).

Section Rowwise.

Context {P : DatetimeParser}.

(** [s + delta] where it does not raise. *)
Definition shift (d : Z) (c : cell) : cell :=
  match c with
  | Ts t => if is_NaT (t + d) then NA else Ts (t + d)
  | _ => c
  end.

(** [pd.to_datetime(col, errors="coerce")] on one cell. *)
Definition coerce_cell (col : Series) (c : cell) : cell :=
  match parse_cell col c with
  | Some t => if in_bounds t then Ts t else NA
  | None => NA
  end.

(** Lines 74 to 76 as a function of the frame. *)
Definition coerce_column (f : frame) (c : string) : frame :=
  match get_loc c (columns f) with
  | Some i => map_col i (λ r, coerce_cell (iloc_col i f) (cell_at i r)) f
  | None => f
  end.

Definition coerce_dates (f : frame) : frame := foldl coerce_column f date_columns.

End Rowwise.

(** ** Tables for the examples *)

(** A checkable form of [wf_frame]. *)
Definition wf_frameb (f : frame) : bool :=
  bool_decide (NoDup (columns f))
  && forallb (λ r, bool_decide (length (cells r) = length (columns f))) (rows f)
  && bool_decide (NoDup (labels f)).

(** One fully empty row out of two. *)
Definition half_empty : table :=
  Table ["clm_id"; "plan_cd"] [[NA; NA]; [Num 1; Num 2]].

Definition half_empty_cleaned : frame :=
  Frame ["clm_id"; "plan_cd"] [Row 1 [Num 1; Num 2]].

(** The second column is empty in two rows out of three. *)
Definition sparse_plan : table :=
  Table ["clm_id"; "plan_cd"] [[Num 1; NA]; [Num 2; NA]; [NA; Num 5]].

Definition sparse_plan_cleaned : frame :=
  Frame ["clm_id"] [Row 0 [Num 1]; Row 1 [Num 2]; Row 2 [NA]].

(** Each column is empty in every other row. *)
Definition criss_cross : table :=
  Table ["clm_id"; "plan_cd"] [[Num 1; NA]; [NA; Num 1]].

Definition criss_cross_cleaned : frame :=
  Frame [] [Row 0 []; Row 1 []].

(** The identifier is the only column. *)
Definition only_authzn : table :=
  Table ["authzn_id"] [[Num 7]; [Num 8]].

Definition only_authzn_cleaned : frame :=
  Frame [] [Row 0 []; Row 1 []].

(** Claims with dates to parse and to impute. *)
Definition dated_claims : table :=
  Table ["clm_id"; "pd_dt"; "clm_adjud_ts"; "clm_sys_cret_dt"]
    [[Num 1; Str "2024-01-10"; Str "2024-01-08"; Str "2024-01-07"];
     [Num 2; NA; NA; Str "2024-01-07"];
     [Num 3; Str "2024-01-12"; Str "2024-01-10"; Str "not-a-date"];
     [Num 4; Str "2024-01-15"; NA; Str "2024-01-11"];
     [Num 5; Str "2024-01-20"; Str "2024-01-18"; Str "2024-01-16"]].

(** The same claims when rule 6 runs: row 1 has its [pd_dt] imputed. *)
Definition dated_claims_with_pd_dt : frame :=
  Frame ["clm_id"; "pd_dt"; "clm_adjud_ts"; "clm_sys_cret_dt"]
    [Row 0 [Num 1; Ts 1704844800000000000; Ts 1704672000000000000;
            Ts 1704585600000000000];
     Row 1 [Num 2; Ts 1704758400000000000; NA; Ts 1704585600000000000];
     Row 2 [Num 3; Ts 1705017600000000000; Ts 1704844800000000000; NA];
     Row 3 [Num 4; Ts 1705276800000000000; NA; Ts 1704931200000000000];
     Row 4 [Num 5; Ts 1705708800000000000; Ts 1705536000000000000;
            Ts 1705363200000000000]].

Definition dated_claims_cleaned : frame :=
  Frame ["clm_id"; "pd_dt"; "clm_adjud_ts"; "clm_sys_cret_dt"]
    [Row 0 [Num 1; Ts 1704844800000000000; Ts 1704672000000000000;
            Ts 1704585600000000000];
     Row 1 [Num 2; Ts 1704758400000000000; Ts 1704585600000000000;
            Ts 1704585600000000000];
     Row 2 [Num 3; Ts 1705017600000000000; Ts 1704844800000000000; NA];
     Row 3 [Num 4; Ts 1705276800000000000; Ts 1705104000000000000;
            Ts 1704931200000000000];
     Row 4 [Num 5; Ts 1705708800000000000; Ts 1705536000000000000;
            Ts 1705363200000000000]].

(** Claims with one amount far off and one amount missing. *)
Definition billed_claims : table :=
  Table ["clm_id"; "totl_billd_amt"]
    [[Num 1; Num 100]; [Num 2; Num 110]; [Num 3; Num 120]; [Num 4; Num 105];
     [Num 5; Num 115]; [Num 6; Num 1000000]; [Num 7; NA]].

Definition billed_claims_cleaned : frame :=
  Frame ["clm_id"; "totl_billd_amt"]
    [Row 0 [Num 1; Num 100]; Row 1 [Num 2; Num 110]; Row 2 [Num 3; Num 120];
     Row 3 [Num 4; Num 105]; Row 4 [Num 5; Num 115]].

(** Claims with repeated rows. *)
Definition repeated_claims : table :=
  Table ["clm_cd"; "plan_cd"]
    [[Num 1; Str "A"]; [Num 2; Str "B"]; [Num 1; Str "A"]; [Num 3; NA];
     [Num 3; NA]].

Definition repeated_claims_cleaned : frame :=
  Frame ["clm_cd"; "plan_cd"]
    [Row 0 [Num 1; Str "A"]; Row 1 [Num 2; Str "B"]; Row 3 [Num 3; NA]].

(** Claims with a payer name missing. *)
Definition payer_claims : table :=
  Table ["clm_id"; "procsr_apprv_pay_by_nm"]
    [[Num 1; Str "ACME"]; [Num 2; NA]; [Num 3; Str "BETA"]; [Num 4; Str "ACME"];
     [Num 5; Str "BETA"]].

Definition payer_claims_cleaned : frame :=
  Frame ["clm_id"; "procsr_apprv_pay_by_nm"]
    [Row 0 [Num 1; Str "ACME"]; Row 1 [Num 2; Str "unknown"];
     Row 2 [Num 3; Str "BETA"]; Row 3 [Num 4; Str "ACME"];
     Row 4 [Num 5; Str "BETA"]].

(** Claims with a text among the amounts. *)
Definition text_amounts : table :=
  Table ["clm_id"; "totl_billd_amt"] [[Num 1; Num 100]; [Num 2; Str "n/a"]].

(** Five float amounts, the largest on the upper bound as rounded. *)
Definition rounded_amounts : table :=
  Table ["totl_billd_amt"] [[Num 0.1]; [Num 0.1]; [Num 0.2]; [Num 0.3]; [Num 0.6]].



(** Claims of 1677: two days before the first [pd_dt] is the instant
    whose tick count is the bit pattern of [NaT]. *)
Definition early_claims : table :=
  Table ["pd_dt"; "clm_adjud_ts"]
    [[Ts (-9223199236854775808); NA];
     [Ts (-9223199236854775807); Ts (-9223372036854775807)];
     [Ts (-9223199236854775806); NA];
     [Ts 1704844800000000000; Ts 1704672000000000000];
     [Ts 1705708800000000000; Ts 1705536000000000000]].

Definition early_claims_cleaned : frame :=
  Frame ["pd_dt"; "clm_adjud_ts"]
    [Row 0 [Ts (-9223199236854775808); NA];
     Row 1 [Ts (-9223199236854775807); Ts (-9223372036854775807)];
     Row 2 [Ts (-9223199236854775806); Ts (-9223372036854775806)];
     Row 3 [Ts 1704844800000000000; Ts 1704672000000000000];
     Row 4 [Ts 1705708800000000000; Ts 1705536000000000000]].

(** A checkable form of [wf_table]. *)
Definition wf_tableb (t : table) : bool :=
  bool_decide (NoDup (tcolumns t))
  && forallb (λ cs, bool_decide (length cs = length (tcolumns t))) (tdata t).

(** Environments: complete, without a token, and with an empty host. *)
Definition full_environ : gmap string string :=
  <["DATABRICKS_HOST" := "adb.example.net"]>
  (<["DATABRICKS_TOKEN" := "dapi123"]>
  (<["DATABRICKS_CLUSTER_ID" := "0101-abc"]>
  (<["DATABRICKS_HTTP_PATH" := "/sql/1.0/warehouses/w1"]> ∅))).

Definition no_token_environ : gmap string string :=
  delete "DATABRICKS_TOKEN" full_environ.

Definition empty_host_environ : gmap string string :=
  <["DATABRICKS_HOST" := ""]> full_environ.

(** Worlds: the source table holds the repeated claims, holds the claims
    with a text amount, or does not exist. *)
Definition source_name : string := "workspace.feature_store_project.fct_claim".

Definition repeated_world : world :=
  World full_environ (<[source_name := repeated_claims]> ∅).

Definition text_world : world :=
  World full_environ (<[source_name := text_amounts]> ∅).

Definition bare_world : world := World full_environ ∅.

(** An engine that fails every write of the feature table. *)
Definition no_feature_engine : Engine :=
  {| fault := λ e,
       match e with
       | SaveAsTable name _ =>
           if String.eqb name
                "workspace.feature_store_project.fct_claim_features_after_datacleanup"
           then Some (RuntimeError "write failed")
           else None
       | _ => None
       end |}.

(** A table with an identifier column, and one without. *)
Definition with_authzn : table :=
  Table ["authzn_id"; "clm_id"] [[Num 7; Num 1]; [Num 8; Num 2]].

Definition without_authzn : table :=
  Table ["clm_id"] [[Num 1]; [Num 2]].

Definition without_authzn_cleaned : frame :=
  Frame ["clm_id"] [Row 0 [Num 1]; Row 1 [Num 2]].

(** [narrows f f']: [f'] has the columns of [f] and some of its rows (by
    label, in order), and is well formed when [f] is. *)
Definition narrows (f f' : frame) : Prop :=
  columns f' = columns f ∧
  labels f' `sublist_of` labels f ∧
  (wf_frame f → wf_frame f').

(** [keeps J f f']: every row of [f'] is a row of [f] (by label) whose
    cells at the positions in [J] are untouched. *)
Definition keeps (J : nat → Prop) (f f' : frame) : Prop :=
  columns f' = columns f ∧
  ∀ r', r' ∈ rows f' →
    ∃ r, r ∈ rows f ∧ label r' = label r ∧ ∀ j, J j → cell_at j r' = cell_at j r.

(** [carries C f f']: every row of [f'] is a row of [f] (by label), the
    columns of [f'] are columns of [f], and under each column of [f']
    named in [C] the row holds the cell it holds in [f]. *)
Definition carries (C : string → Prop) (f f' : frame) : Prop :=
  (∀ c, c ∈ columns f' → c ∈ columns f) ∧
  ∀ r', r' ∈ rows f' →
    ∃ r, r ∈ rows f ∧ label r' = label r ∧
         ∀ c, C c → c ∈ columns f' → cell_of c f' r' = cell_of c f r.

(** [keeps_present i f f']: every row of [f'] is a row of [f] (by label)
    whose cell at position [i], when it is not missing, is untouched. *)
Definition keeps_present (i : nat) (f f' : frame) : Prop :=
  ∀ r', r' ∈ rows f' →
    ∃ r, r ∈ rows f ∧ label r' = label r ∧
         (cell_at i r ≠ NA → cell_at i r' = cell_at i r).

(** A cell of a parsed date column: missing, or a representable timestamp. *)
Definition ts_cell {P : DatetimeParser} (c : cell) : Prop :=
  c = NA ∨ ∃ t, c = Ts t ∧ in_bounds t = true.

Definition col_ts {P : DatetimeParser} (i : nat) (f : frame) : Prop :=
  ∀ r, r ∈ rows f → ts_cell (cell_at i r).

(** The table names of [main]: [{CATALOG}.{SCHEMA}] and a suffix. *)
Definition qualified (environ : gmap string string) (suffix : string) : string :=
  default "workspace" (environ !! "DATABRICKS_CATALOG") +:+ "." +:+
  default "feature_store_project" (environ !! "DATABRICKS_SCHEMA") +:+ suffix.

(** The calls to the remote engine in a trace: all but the prints. *)
Definition is_print (e : event) : bool :=
  match e with
  | Print _ | PrintErr _ => true
  | _ => false
  end.

Definition engine_calls (tr : list event) : list event :=
  List.filter (λ e, negb (is_print e)) tr.

(** The columns the rules write to. *)
Definition rewritten_columns : list string :=
  ["pd_dt"; "clm_adjud_ts"; "clm_sys_cret_dt"; "procsr_apprv_pay_by_nm"].

(** * Properties *)

Lemma wf_frameb_true (f : frame) : wf_frameb f = true → wf_frame f.
Proof.
  unfold wf_frameb. rewrite !andb_true_iff, forallb_forall, !bool_decide_eq_true.
  intros [[Hc Hw] Hl]. split; [done| |done].
  apply Forall_forall. intros r Hr%list_elem_of_In.
  specialize (Hw r Hr). by apply bool_decide_eq_true in Hw.
Qed.

(** A frame read from a table with distinct column names is well formed. *)
Lemma rows_toPandas_lookup (t : table) (i : nat) (r : row) :
  rows (toPandas t) !! i = Some r ↔ ∃ cs, tdata t !! i = Some cs ∧ r = Row i cs.
Proof.
  unfold toPandas. simpl. rewrite list_lookup_imap.
  destruct (tdata t !! i) as [cs|]; simpl; split.
  - intros [= <-]. eauto.
  - by intros (cs' & [= <-] & ->).
  - done.
  - by intros (cs' & [=] & _).
Qed.

Lemma wf_toPandas (t : table) : wf_table t → wf_frame (toPandas t).
Proof.
  intros [Hc Hw]. split.
  - done.
  - apply Forall_lookup. intros i r (cs & Hcs & ->)%rows_toPandas_lookup.
    simpl. by eapply (Forall_lookup_1 _ _ _ _ Hw).
  - apply NoDup_alt. intros i j l Hi Hj. unfold labels in Hi, Hj.
    rewrite list_lookup_fmap in Hi, Hj.
    destruct (rows (toPandas t) !! i) as [ri|] eqn:Hri; [|done].
    destruct (rows (toPandas t) !! j) as [rj|] eqn:Hrj; [|done].
    apply rows_toPandas_lookup in Hri as (? & _ & ->).
    apply rows_toPandas_lookup in Hrj as (? & _ & ->).
    simpl in *. congruence.
Qed.

(** ** Boolean indexing *)

Lemma select_fmap_filter {A : Type} (p : A → bool) (l : list A) :
  select (p <$> l) l = List.filter p l.
Proof.
  induction l as [|x l IH]; [done|].
  rewrite fmap_cons. simpl. destruct (p x); by rewrite IH.
Qed.

Lemma select_sublist {A : Type} (m : list bool) (l : list A) :
  select m l `sublist_of` l.
Proof.
  revert m. induction l as [|x l IH]; intros [|[] m]; simpl;
    try (by apply sublist_nil_l).
  - by apply sublist_skip.
  - by apply sublist_cons.
Qed.

Lemma select_fmap {A B : Type} (g : A → B) (m : list bool) (l : list A) :
  select m (g <$> l) = g <$> select m l.
Proof.
  revert m. induction l as [|x l IH]; intros [|[] m]; simpl; try done.
  by rewrite IH.
Qed.

Lemma length_select {A B : Type} (m : list bool) (l : list A) (k : list B) :
  length l = length k → length (select m l) = length (select m k).
Proof.
  revert m k. induction l as [|x l IH]; intros [|[] m] [|y k] Hlen;
    simpl in *; try done; auto with lia.
Qed.

Lemma elem_of_select_fmap {A : Type} (p : A → bool) (l : list A) (x : A) :
  x ∈ select (p <$> l) l ↔ x ∈ l ∧ p x = true.
Proof.
  rewrite select_fmap_filter, !list_elem_of_In. apply filter_In.
Qed.

Lemma lookup_select_all {A : Type} (m : list bool) (l : list A) :
  length m = length l → Forall (λ b, b = true) m → select m l = l.
Proof.
  revert l. induction m as [|b m IH]; intros [|x l] Hlen Hall;
    simpl in *; try done.
  inversion Hall; subst. f_equal. apply IH; [lia|done].
Qed.

(** ** Column positions *)

Lemma get_loc_lookup (c : string) (cols : list string) (i : nat) :
  get_loc c cols = Some i → cols !! i = Some c.
Proof.
  revert i. induction cols as [|c' cols IH]; intros i; simpl; [done|].
  destruct (String.eqb_spec c c') as [->|Hne].
  - by intros [= <-].
  - destruct (get_loc c cols) as [j|]; simpl; [|done].
    intros [= <-]. simpl. by apply IH.
Qed.

Lemma get_loc_lt (c : string) (cols : list string) (i : nat) :
  get_loc c cols = Some i → (i < length cols)%nat.
Proof. intros H. eapply lookup_lt_Some, get_loc_lookup, H. Qed.

Lemma get_loc_is_Some (c : string) (cols : list string) :
  is_Some (get_loc c cols) ↔ c ∈ cols.
Proof.
  induction cols as [|c' cols IH]; simpl.
  - split; [by intros [? ?]|by intros ?%elem_of_nil].
  - destruct (String.eqb_spec c c') as [->|Hne].
    + split; [intros _; apply list_elem_of_here|eauto].
    + rewrite elem_of_cons, <- IH, fmap_is_Some.
      split; [by right|by intros [?|?]].
Qed.

Lemma get_loc_ne (c c' : string) (cols : list string) (i j : nat) :
  get_loc c cols = Some i → get_loc c' cols = Some j → c ≠ c' → i ≠ j.
Proof.
  intros Hi%get_loc_lookup Hj%get_loc_lookup Hne ->. congruence.
Qed.

Lemma has_column_true (c : string) (f : frame) :
  has_column c f = true ↔ c ∈ columns f.
Proof.
  unfold has_column. rewrite <- get_loc_is_Some.
  split; [apply bool_decide_eq_true_1|apply bool_decide_eq_true_2].
Qed.

Lemma has_column_loc (c : string) (f : frame) :
  has_column c f = true → ∃ i, get_loc c (columns f) = Some i.
Proof. intros H%has_column_true%get_loc_is_Some. exact H. Qed.

(** ** Assignments, row by row *)

Lemma setitem_rowwise (c : string) (g : row → cell) (f : frame) (i : nat) :
  get_loc c (columns f) = Some i →
  setitem c (g <$> rows f) f = map_col i g f.
Proof.
  intros Hi. unfold setitem, map_col. rewrite Hi. f_equal.
  by rewrite zip_with_fmap_r, zip_with_diag.
Qed.

Lemma getitem_loc (c : string) (f : frame) (i : nat) :
  get_loc c (columns f) = Some i → getitem c f = cell_at i <$> rows f.
Proof. intros Hi. unfold getitem. by rewrite Hi. Qed.

Lemma cell_at_upd_eq (i : nat) (g : row → cell) (r : row) :
  (i < length (cells r))%nat → cell_at i (upd i g r) = g r.
Proof.
  intros Hi. unfold cell_at, upd. simpl.
  by rewrite list_lookup_insert_eq.
Qed.

Lemma cell_at_upd_ne (i j : nat) (g : row → cell) (r : row) :
  i ≠ j → cell_at j (upd i g r) = cell_at j r.
Proof.
  intros Hij. unfold cell_at, upd. simpl.
  by rewrite list_lookup_insert_ne.
Qed.

Lemma label_upd (i : nat) (g : row → cell) (r : row) : label (upd i g r) = label r.
Proof. done. Qed.

Lemma length_cells_upd (i : nat) (g : row → cell) (r : row) :
  length (cells (upd i g r)) = length (cells r).
Proof. apply length_insert. Qed.

Lemma labels_map_col (i : nat) (g : row → cell) (f : frame) :
  labels (map_col i g f) = labels f.
Proof.
  unfold labels, map_col. simpl. rewrite <- list_fmap_compose.
  by apply list_fmap_ext.
Qed.

Lemma wf_map_col (i : nat) (g : row → cell) (f : frame) :
  wf_frame f → wf_frame (map_col i g f).
Proof.
  intros [Hc Hw Hl]. split.
  - done.
  - simpl. rewrite Forall_fmap. eapply Forall_impl; [exact Hw|].
    intros r Hr. simpl. by rewrite length_insert.
  - by rewrite labels_map_col.
Qed.

(** ** The rules one by one *)

Lemma filter_filter_same {A : Type} (p : A → bool) (l : list A) :
  List.filter p (List.filter p l) = List.filter p l.
Proof.
  induction l as [|x l IH]; simpl; [done|].
  destruct (p x) eqn:Hp; simpl; [rewrite Hp; by f_equal|done].
Qed.

Lemma rows_dropna_all (f : frame) :
  rows (dropna_all f) = List.filter (λ r, existsb notna (cells r)) (rows f).
Proof. unfold dropna_all. simpl. apply select_fmap_filter. Qed.

Lemma dropna_all_idempotent (f : frame) :
  dropna_all (dropna_all f) = dropna_all f.
Proof.
  unfold dropna_all at 1. rewrite select_fmap_filter, rows_dropna_all.
  rewrite filter_filter_same. unfold dropna_all.
  by rewrite select_fmap_filter.
Qed.

Lemma labels_sublist_rows (f f' : frame) :
  rows f' `sublist_of` rows f → labels f' `sublist_of` labels f.
Proof. intros H. unfold labels. by apply fmap_sublist. Qed.

Lemma wf_sub_rows (f f' : frame) :
  columns f' = columns f → rows f' `sublist_of` rows f →
  wf_frame f → wf_frame f'.
Proof.
  intros Hc Hs [Hcols Hw Hl]. split.
  - by rewrite Hc.
  - rewrite Hc. rewrite Forall_forall in Hw |- *.
    intros r Hr. apply Hw. eapply elem_of_sublist; eauto.
  - eapply sublist_NoDup; [exact Hl|]. by apply labels_sublist_rows.
Qed.

Lemma dropna_all_sublist (f : frame) : rows (dropna_all f) `sublist_of` rows f.
Proof. apply select_sublist. Qed.

Lemma wf_dropna_all (f : frame) : wf_frame f → wf_frame (dropna_all f).
Proof. apply wf_sub_rows; [done|apply dropna_all_sublist]. Qed.

Lemma elem_of_columns_drop (names : list string) (f : frame) (c : string) :
  c ∈ columns (drop_columns names f) ↔ c ∈ columns f ∧ c ∉ names.
Proof.
  unfold drop_columns, keep_mask. simpl.
  rewrite elem_of_select_fmap, negb_true_iff, bool_decide_eq_false. done.
Qed.

Lemma labels_drop_columns (names : list string) (f : frame) :
  labels (drop_columns names f) = labels f.
Proof.
  unfold labels, drop_columns. simpl. rewrite <- list_fmap_compose.
  by apply list_fmap_ext.
Qed.

Lemma wf_drop_columns (names : list string) (f : frame) :
  wf_frame f → wf_frame (drop_columns names f).
Proof.
  intros [Hc Hw Hl]. split.
  - eapply sublist_NoDup; [exact Hc|apply select_sublist].
  - simpl. rewrite Forall_fmap. eapply Forall_impl; [exact Hw|].
    intros r Hr. simpl. by apply length_select.
  - by rewrite labels_drop_columns.
Qed.

Lemma keep_mask_all (names cols : list string) :
  (∀ c, c ∈ names → c ∉ cols) →
  Forall (λ b, b = true) (keep_mask names cols).
Proof.
  intros H. unfold keep_mask. rewrite Forall_fmap, Forall_forall.
  intros c Hc. simpl. rewrite negb_true_iff, bool_decide_eq_false.
  intros Hn. by apply (H c).
Qed.

Lemma drop_columns_absent (names : list string) (f : frame) :
  Forall (λ r, length (cells r) = length (columns f)) (rows f) →
  (∀ c, c ∈ names → c ∉ columns f) →
  drop_columns names f = f.
Proof.
  intros Hw Habs. destruct f as [cols rs]. unfold drop_columns. simpl in *.
  pose proof (keep_mask_all names cols Habs) as Hall.
  assert (Hlen : length (keep_mask names cols) = length cols)
    by (unfold keep_mask; apply length_fmap).
  f_equal.
  - by apply lookup_select_all.
  - transitivity (id <$> rs); [|apply list_fmap_id].
    apply Forall_fmap_ext_1. eapply Forall_impl; [exact Hw|].
    intros [l cs] Hr. simpl in *. f_equal.
    apply lookup_select_all; [lia|done].
Qed.

Section CleaningFacts.

Context {P : DatetimeParser} {E : Engine}.

(** With [errors="coerce"] the parsing of a column raises nothing. *)
Lemma to_datetime_cell_coerce (col : Series) (c : cell) :
  to_datetime_cell errors_coerce col c = Ok (coerce_cell col c).
Proof.
  unfold to_datetime_cell, coerce_cell.
  destruct c; simpl; try done;
    (destruct (parse _ _) as [t|]; [|done]) || idtac;
    by destruct (in_bounds _).
Qed.

Lemma mapM_Ok {A B : Type} (g : A → result B) (h : A → B) (l : list A) :
  (∀ x, g x = Ok (h x)) → mapM g l = Ok (h <$> l).
Proof.
  intros Hg. induction l as [|x l IH]; [done|].
  simpl. rewrite Hg. simpl. by rewrite IH.
Qed.

Lemma to_datetime_coerce (s : Series) :
  to_datetime errors_coerce s = Ok (coerce_cell s <$> s).
Proof. apply mapM_Ok, to_datetime_cell_coerce. Qed.

Lemma parse_date_column_spec (f : frame) (c : string) :
  parse_date_column f c = Ok (coerce_column f c).
Proof.
  unfold parse_date_column, coerce_column, has_column.
  destruct (get_loc c (columns f)) as [i|] eqn:Hi.
  - rewrite bool_decide_eq_true_2 by eauto.
    rewrite (getitem_loc _ _ _ Hi), to_datetime_coerce. simpl. f_equal.
    rewrite <- list_fmap_compose. by apply setitem_rowwise.
  - rewrite bool_decide_eq_false_2; [done|]. by intros [? ?].
Qed.

Lemma parse_columns_spec (cs : list string) (f : frame) :
  parse_columns cs f = Ok (foldl coerce_column f cs).
Proof.
  revert f. induction cs as [|c cs IH]; intros f; [done|].
  simpl. rewrite parse_date_column_spec. simpl. apply IH.
Qed.

Lemma parse_dates_spec (f : frame) : parse_dates f = Ok (coerce_dates f).
Proof. apply parse_columns_spec. Qed.

Lemma parsed_spec (df : frame) :
  parsed df =
  coerce_dates (drop_columns ["authzn_id"]
                  (drop_columns (cols_to_drop (dropna_all df)) (dropna_all df))).
Proof. unfold parsed. cbv zeta. by rewrite parse_dates_spec. Qed.


Lemma in_bounds_not_NaT (t : Z) : in_bounds t = true → is_NaT t = false.
Proof.
  unfold in_bounds, is_NaT, ts_min, iNaT.
  rewrite andb_true_iff, Z.leb_le, Z.eqb_neq. lia.
Qed.

Lemma add_delta_shift (d : Z) (s s' : Series) :
  add_delta d s = Ok s' → s' = shift d <$> s.
Proof.
  unfold add_delta. revert s'.
  induction s as [|c s IH]; intros s'; simpl.
  - by intros [= <-].
  - destruct c as [| n | x | x | t]; simpl; try done.
    + destruct (mapM (add_delta_cell d) s) as [k|e]; simpl; [|done].
      intros [= <-]. f_equal. by apply IH.
    + destruct (in_bounds (t + d)) eqn:Hb; simpl.
      * destruct (mapM (add_delta_cell d) s) as [k|e]; simpl; [|done].
        intros [= <-]. rewrite (in_bounds_not_NaT _ Hb). f_equal. by apply IH.
      * destruct (is_NaT (t + d)); simpl; [|done].
        destruct (mapM (add_delta_cell d) s) as [k|e]; simpl; [|done].
        intros [= <-]. f_equal. by apply IH.
Qed.

Lemma fill_from_spec (target source : string) (d : Z) (f f' : frame) (it is' : nat) :
  get_loc target (columns f) = Some it →
  get_loc source (columns f) = Some is' →
  (shifted ← add_delta d (getitem source f);
   mret (setitem target (fillna (getitem target f) shifted) f)) = Ok f' →
  f' = map_col it (λ r, fill (cell_at it r) (shift d (cell_at is' r))) f.
Proof.
  intros Ht Hs. rewrite (getitem_loc _ _ _ Ht), (getitem_loc _ _ _ Hs).
  destruct (add_delta d (cell_at is' <$> rows f)) as [k|e] eqn:Hk; simpl; [|done].
  intros [= <-]. apply add_delta_shift in Hk as ->.
  unfold fillna. rewrite zip_with_fmap_l, !zip_with_fmap_r, zip_with_diag.
  by apply setitem_rowwise.
Qed.

Lemma impute_pd_dt_spec (f f' : frame) :
  impute_pd_dt f = Ok f' →
  (∃ ic ip, get_loc "clm_sys_cret_dt" (columns f) = Some ic ∧
            get_loc "pd_dt" (columns f) = Some ip ∧
            f' = map_col ip (λ r, fill (cell_at ip r)
                                       (shift (Timedelta_days 2) (cell_at ic r))) f)
  ∨ ((has_column "clm_sys_cret_dt" f && has_column "pd_dt" f) = false ∧ f' = f).
Proof.
  unfold impute_pd_dt.
  destruct (has_column "clm_sys_cret_dt" f) eqn:Hc; simpl.
  - destruct (has_column "pd_dt" f) eqn:Hp; simpl.
    + apply has_column_loc in Hc as [ic Hc]. apply has_column_loc in Hp as [ip Hp].
      intros H. left. exists ic, ip. split_and!; [done..|].
      by apply (fill_from_spec _ _ _ _ _ _ _ Hp Hc).
    + intros [= <-]. by right.
  - intros [= <-]. by right.
Qed.

Lemma impute_clm_adjud_ts_spec (f f' : frame) :
  impute_clm_adjud_ts f = Ok f' →
  (∃ ip ia, get_loc "pd_dt" (columns f) = Some ip ∧
            get_loc "clm_adjud_ts" (columns f) = Some ia ∧
            f' = map_col ia (λ r, fill (cell_at ia r)
                                       (shift (- Timedelta_days 2) (cell_at ip r))) f)
  ∨ ((has_column "pd_dt" f && has_column "clm_adjud_ts" f) = false ∧ f' = f).
Proof.
  unfold impute_clm_adjud_ts.
  destruct (has_column "pd_dt" f) eqn:Hp; simpl.
  - destruct (has_column "clm_adjud_ts" f) eqn:Ha; simpl.
    + apply has_column_loc in Hp as [ip Hp]. apply has_column_loc in Ha as [ia Ha].
      intros H. left. exists ip, ia. split_and!; [done..|].
      by apply (fill_from_spec _ _ _ _ _ _ _ Ha Hp).
    + intros [= <-]. by right.
  - intros [= <-]. by right.
Qed.

Lemma impute_categorical_spec (f : frame) :
  impute_categorical f =
  match get_loc "procsr_apprv_pay_by_nm" (columns f) with
  | Some i => map_col i (λ r, fill (cell_at i r) (Str "unknown")) f
  | None => f
  end.
Proof.
  unfold impute_categorical, has_column.
  destruct (get_loc _ (columns f)) as [i|] eqn:Hi.
  - rewrite bool_decide_eq_true_2 by eauto.
    rewrite (getitem_loc _ _ _ Hi). unfold fillna_value.
    rewrite <- list_fmap_compose. by apply setitem_rowwise.
  - rewrite bool_decide_eq_false_2; [done|]. by intros [? ?].
Qed.

Lemma remove_outliers_spec (f f' : frame) :
  remove_outliers f = Ok f' →
  (∃ i Q1 Q3, get_loc "totl_billd_amt" (columns f) = Some i ∧
      quantile (getitem "totl_billd_amt" f) (float_lit 25 100) = Ok Q1 ∧
      quantile (getitem "totl_billd_amt" f) (float_lit 75 100) = Ok Q3 ∧
      f' = Frame (columns f)
             (List.filter (λ r, within (lower_bound Q1 Q3) (upper_bound Q1 Q3)
                                       (cell_at i r)) (rows f)))
  ∨ (has_column "totl_billd_amt" f = false ∧ f' = f).
Proof.
  unfold remove_outliers.
  destruct (has_column "totl_billd_amt" f) eqn:Hc; [|intros [= <-]; by right].
  apply has_column_loc in Hc as [i Hi].
  destruct (quantile _ (float_lit 25 100)) as [Q1|e] eqn:H1; simpl; [|done].
  destruct (quantile _ (float_lit 75 100)) as [Q3|e] eqn:H3; simpl; [|done].
  intros [= <-]. left. exists i, Q1, Q3. split_and!; [done..|].
  f_equal. rewrite (getitem_loc _ _ _ Hi), <- list_fmap_compose.
  apply select_fmap_filter.
Qed.

Lemma columns_drop_duplicates (f : frame) :
  columns (drop_duplicates f) = columns f.
Proof. unfold drop_duplicates. by destruct (empty f). Qed.

Lemma rows_drop_duplicates_sublist (f : frame) :
  rows (drop_duplicates f) `sublist_of` rows f.
Proof.
  unfold drop_duplicates. destruct (empty f); [done|]. apply select_sublist.
Qed.

(** *** What every rule keeps *)

Lemma narrows_refl (f : frame) : narrows f f.
Proof. by split_and!. Qed.

Lemma narrows_trans (f g h : frame) : narrows f g → narrows g h → narrows f h.
Proof.
  intros (Hc1 & Hl1 & Hw1) (Hc2 & Hl2 & Hw2). split_and!.
  - congruence.
  - by etransitivity.
  - auto.
Qed.

Lemma narrows_map_col (i : nat) (g : row → cell) (f : frame) :
  narrows f (map_col i g f).
Proof.
  split_and!; [done| by rewrite labels_map_col | apply wf_map_col].
Qed.

Lemma narrows_sub_rows (f f' : frame) :
  columns f' = columns f → rows f' `sublist_of` rows f → narrows f f'.
Proof.
  intros Hc Hs. split_and!; [done|by apply labels_sublist_rows|by apply wf_sub_rows].
Qed.

Lemma narrows_parse_date_column (f : frame) (c : string) :
  narrows f (coerce_column f c).
Proof.
  unfold coerce_column. destruct (get_loc c (columns f)).
  - apply narrows_map_col.
  - apply narrows_refl.
Qed.

Lemma narrows_parse_dates (f : frame) : narrows f (coerce_dates f).
Proof.
  unfold coerce_dates, date_columns. simpl.
  eapply narrows_trans; [|apply narrows_parse_date_column].
  eapply narrows_trans; [|apply narrows_parse_date_column].
  apply narrows_parse_date_column.
Qed.

Lemma narrows_impute_pd_dt (f f' : frame) :
  impute_pd_dt f = Ok f' → narrows f f'.
Proof.
  intros [(ic & ip & _ & _ & ->)|[_ ->]]%impute_pd_dt_spec.
  - apply narrows_map_col.
  - apply narrows_refl.
Qed.

Lemma narrows_impute_clm_adjud_ts (f f' : frame) :
  impute_clm_adjud_ts f = Ok f' → narrows f f'.
Proof.
  intros [(ic & ip & _ & _ & ->)|[_ ->]]%impute_clm_adjud_ts_spec.
  - apply narrows_map_col.
  - apply narrows_refl.
Qed.

Lemma narrows_impute_categorical (f : frame) : narrows f (impute_categorical f).
Proof.
  rewrite impute_categorical_spec. destruct (get_loc _ (columns f)).
  - apply narrows_map_col.
  - apply narrows_refl.
Qed.

Lemma remove_outliers_sub (f f' : frame) :
  remove_outliers f = Ok f' →
  columns f' = columns f ∧ rows f' `sublist_of` rows f.
Proof.
  intros [(i & Q1 & Q3 & _ & _ & _ & ->)|[_ ->]]%remove_outliers_spec; [|done].
  split; [done|]. simpl. rewrite <- select_fmap_filter. apply select_sublist.
Qed.

Lemma narrows_remove_outliers (f f' : frame) :
  remove_outliers f = Ok f' → narrows f f'.
Proof. intros [? ?]%remove_outliers_sub. by apply narrows_sub_rows. Qed.

Lemma narrows_drop_duplicates (f : frame) : narrows f (drop_duplicates f).
Proof.
  apply narrows_sub_rows;
    [apply columns_drop_duplicates|apply rows_drop_duplicates_sublist].
Qed.

(** *** The rules in sequence *)

Lemma outcome_bind {A B : Type} (m : io A) (k : A → io B) :
  outcome (m ≫= k) = outcome m ≫= (λ a, outcome (k a)).
Proof.
  destruct m as [t [a|e]]; unfold outcome; cbn; [|done]. by destruct (k a).
Qed.

Lemma outcome_lift {A : Type} (r : result A) : outcome (lift r) = r.
Proof. done. Qed.

Lemma outcome_print (m : message) : outcome (print m) = Ok tt.
Proof. done. Qed.

Lemma outcome_ret {A : Type} (x : A) : outcome (mret x : io A) = Ok x.
Proof. done. Qed.

Lemma outcome_if {A : Type} (b : bool) (m1 m2 : io A) :
  outcome (if b then m1 else m2) = if b then outcome m1 else outcome m2.
Proof. by destruct b. Qed.

Lemma result_bind_Ok {A B : Type} (a : A) (k : A → result B) : (Ok a ≫= k) = k a.
Proof. done. Qed.

Lemma if_same {A : Type} (b : bool) (x : A) : (if b then x else x) = x.
Proof. by destruct b. Qed.

Lemma cleaning_outcome (df : frame) : outcome (cleaning df) = cleaned df.
Proof.
  unfold cleaned, trimmed, imputed, with_pd_dt. rewrite parsed_spec.
  unfold cleaning. cbv zeta. rewrite parse_dates_spec.
  set (f4 := coerce_dates _).
  rewrite outcome_bind, outcome_if, outcome_ret, outcome_print, if_same,
    result_bind_Ok.
  rewrite outcome_bind, outcome_lift, result_bind_Ok.
  rewrite outcome_bind, outcome_lift.
  destruct (impute_pd_dt f4) as [f5|e5]; [|done]. rewrite !result_bind_Ok.
  rewrite outcome_bind, outcome_lift.
  destruct (impute_clm_adjud_ts f5) as [f6|e6]; [|done]. rewrite !result_bind_Ok.
  rewrite outcome_bind, outcome_lift.
  destruct (remove_outliers (impute_categorical f6)) as [f8|e8]; [|done].
  rewrite !result_bind_Ok.
  rewrite outcome_bind, outcome_if, outcome_ret, outcome_print, if_same,
    result_bind_Ok.
  rewrite outcome_bind, outcome_print, result_bind_Ok.
  rewrite outcome_bind, outcome_print, result_bind_Ok.
  by rewrite outcome_ret.
Qed.

Lemma cleaned_stages (df out : frame) :
  cleaned df = Ok out →
  ∃ f5 f6 f8,
    with_pd_dt df = Ok f5 ∧
    impute_clm_adjud_ts f5 = Ok f6 ∧
    imputed df = Ok (impute_categorical f6) ∧
    remove_outliers (impute_categorical f6) = Ok f8 ∧
    trimmed df = Ok f8 ∧
    out = drop_duplicates f8.
Proof.
  unfold cleaned, trimmed, imputed.
  destruct (with_pd_dt df) as [f5|e] eqn:H5; simpl; [|done].
  destruct (impute_clm_adjud_ts f5) as [f6|e] eqn:H6; simpl; [|done].
  destruct (remove_outliers (impute_categorical f6)) as [f8|e] eqn:H8; simpl; [|done].
  intros [= <-]. by exists f5, f6, f8.
Qed.

Lemma narrows_parsed (df : frame) :
  narrows (drop_columns ["authzn_id"]
             (drop_columns (cols_to_drop (dropna_all df)) (dropna_all df)))
          (parsed df).
Proof. rewrite parsed_spec. apply narrows_parse_dates. Qed.

Lemma narrows_cleaned (df out : frame) :
  cleaned df = Ok out → narrows (parsed df) out.
Proof.
  intros (f5 & f6 & f8 & H5 & H6 & _ & H8 & _ & ->)%cleaned_stages.
  eapply narrows_trans; [by apply narrows_impute_pd_dt|].
  eapply narrows_trans; [by apply narrows_impute_clm_adjud_ts|].
  eapply narrows_trans; [by apply narrows_impute_categorical|].
  eapply narrows_trans; [by apply narrows_remove_outliers|].
  apply narrows_drop_duplicates.
Qed.

Lemma wf_parsed (df : frame) : wf_frame df → wf_frame (parsed df).
Proof.
  intros Hwf. apply narrows_parsed.
  by apply wf_drop_columns, wf_drop_columns, wf_dropna_all.
Qed.

Lemma labels_parsed (df : frame) :
  labels (parsed df) `sublist_of` labels (dropna_all df).
Proof.
  destruct (narrows_parsed df) as (_ & Hl & _).
  by rewrite !labels_drop_columns in Hl.
Qed.

Lemma columns_cleaned (df out : frame) (c : string) :
  cleaned df = Ok out →
  c ∈ columns out →
  c ≠ "authzn_id" ∧ (c ∉ cols_to_drop (dropna_all df)) ∧ c ∈ columns df.
Proof.
  intros (Hc & _)%narrows_cleaned. rewrite Hc.
  destruct (narrows_parsed df) as (-> & _).
  rewrite !elem_of_columns_drop, list_elem_of_singleton.
  intros [[Hin Hnd] Hne]. by split_and!.
Qed.

(** *** The share of missing cells *)

Lemma Zpos_of_nat (n : nat) : n ≠ 0%nat → Z.pos (Pos.of_nat n) = Z.of_nat n.
Proof.
  destruct n as [|n]; [done|]. intros _.
  by rewrite <- Pos.of_nat_succ, Zpos_P_of_succ_nat, <- Nat2Z.inj_succ.
Qed.

Lemma nan_gt_pct (s : Series) :
  nan_gt ((λ m, m * 100)%Q <$> isnull_mean s) 40 = true ↔
  (40 * length s < 100 * count_na s)%nat.
Proof.
  unfold isnull_mean. destruct s as [|c s].
  - simpl. split; [done|lia].
  - set (l := c :: s). assert (length l ≠ 0)%nat as Hlen by (subst l; simpl; lia).
    clearbody l. simpl.
    rewrite negb_true_iff, <- not_true_iff_false, Qle_bool_iff.
    unfold Qle. simpl.
    rewrite Pos2Z.inj_mul. simpl.
    rewrite Zpos_of_nat by done. lia.
Qed.

Lemma elem_of_cols_to_drop (f : frame) (i : nat) (c : string) :
  columns f !! i = Some c →
  (40 * length (rows f) < 100 * count_na (iloc_col i f))%nat →
  c ∈ cols_to_drop f.
Proof.
  intros Hi Hpct. unfold cols_to_drop, missing_pct.
  apply list_elem_of_fmap.
  exists (c, (λ m, m * 100)%Q <$> isnull_mean (iloc_col i f)). split; [done|].
  apply list_elem_of_In, filter_In. split.
  - apply list_elem_of_In, list_elem_of_lookup. exists i.
    by rewrite list_lookup_imap, Hi.
  - simpl. apply nan_gt_pct. unfold iloc_col at 1. by rewrite length_fmap.
Qed.


(** ** Rules 2 and 3: the columns that go *)

(** C9: whatever the input, the column [authzn_id] is not a column of the
    cleaned frame; and on a frame that has no such column the drop of line
    71 raises nothing and changes nothing. *)
Theorem authzn_id_absent (df out f : frame) :
  (outcome (cleaning df) = Ok out → ("authzn_id" ∉ columns out)) ∧
  (wf_frame f → "authzn_id" ∉ columns f → drop_columns ["authzn_id"] f = f).
Proof.
  split.
  - rewrite cleaning_outcome. intros Hout Hin.
    by destruct (columns_cleaned _ _ _ Hout Hin) as (Hne & _).
  - intros [_ Hw _] Habs. apply drop_columns_absent; [done|].
    by intros c ->%list_elem_of_singleton.
Qed.

(** C2, as the code has it: a column whose share of missing cells, taken
    over the rows that are left once the fully empty rows are gone,
    exceeds 40 percent is not a column of the cleaned frame. *)
Theorem sparse_column_absent (df out : frame) (i : nat) (c : string) :
  outcome (cleaning df) = Ok out →
  columns df !! i = Some c →
  (40 * length (rows (dropna_all df))
     < 100 * count_na (iloc_col i (dropna_all df)))%nat →
  c ∉ columns out.
Proof.
  rewrite cleaning_outcome. intros Hout Hi Hpct Hin.
  destruct (columns_cleaned _ _ _ Hout Hin) as (_ & Hnd & _).
  apply Hnd. by apply (elem_of_cols_to_drop (dropna_all df) i).
Qed.

(** ** Rule 1: fully empty rows *)

(** C5, as the code has it: no input row that is missing in every column
    reaches the output (an output row carries the label of an input row
    with at least one value); the frame rule 1 returns has no fully empty
    row; and running rule 1 on its own result changes nothing. *)
Theorem empty_rows_dropped (df out : frame) :
  outcome (cleaning df) = Ok out →
  (∀ r, r ∈ rows out →
     ∃ r0, r0 ∈ rows df ∧ label r0 = label r ∧ existsb notna (cells r0) = true) ∧
  (∀ r, r ∈ rows (dropna_all df) → existsb notna (cells r) = true) ∧
  dropna_all (dropna_all df) = dropna_all df.
Proof.
  rewrite cleaning_outcome. intros Hout.
  assert (∀ r, r ∈ rows (dropna_all df) →
               r ∈ rows df ∧ existsb notna (cells r) = true) as Hrule1.
  { intros r. rewrite rows_dropna_all, !list_elem_of_In. apply filter_In. }
  split_and!.
  - intros r Hr.
    destruct (narrows_cleaned _ _ Hout) as (_ & Hl & _).
    assert (label r ∈ labels (dropna_all df)) as Hlab.
    { eapply elem_of_sublist; [|apply labels_parsed].
      eapply elem_of_sublist; [|exact Hl].
      unfold labels. apply list_elem_of_fmap. by exists r. }
    unfold labels in Hlab. apply list_elem_of_fmap in Hlab as (r0 & Hlab & Hr0).
    exists r0. destruct (Hrule1 r0 Hr0). by split_and!.
  - intros r Hr. by destruct (Hrule1 r Hr).
  - apply dropna_all_idempotent.
Qed.

(** ** Rule 4: date parsing *)

Lemma coerce_cell_unparsed (col : Series) (c : cell) :
  parse_cell col c = None → coerce_cell col c = NA.
Proof. intros H. unfold coerce_cell. by rewrite H. Qed.

Lemma cell_at_width (f : frame) (c : string) (i : nat) (r : row) :
  wf_frame f → get_loc c (columns f) = Some i → r ∈ rows f →
  (i < length (cells r))%nat.
Proof.
  intros [_ Hw _] Hi Hr. rewrite Forall_forall in Hw.
  rewrite (Hw r Hr). by eapply get_loc_lt.
Qed.

Lemma parse_date_column_row (f : frame) (c : string) (k : nat) (r : row) :
  wf_frame f → rows f !! k = Some r →
  ∃ r', rows (coerce_column f c) !! k = Some r' ∧ label r' = label r ∧
    ∀ j, cell_at j r' =
         if bool_decide (get_loc c (columns f) = Some j)
         then coerce_cell (iloc_col j f) (cell_at j r) else cell_at j r.
Proof.
  intros Hwf Hk. unfold coerce_column.
  destruct (get_loc c (columns f)) as [i|] eqn:Hi.
  - exists (upd i (λ r, coerce_cell (iloc_col i f) (cell_at i r)) r). split_and!.
    + simpl. by rewrite list_lookup_fmap, Hk.
    + done.
    + intros j. case_bool_decide as Hj.
      * injection Hj as <-. apply cell_at_upd_eq.
        eapply cell_at_width; [done..|]. by eapply list_elem_of_lookup_2.
      * apply cell_at_upd_ne. congruence.
  - exists r. split_and!; [done..|]. intros j. by case_bool_decide.
Qed.

(** Coercing one column leaves the series of the others as they are. *)
Lemma iloc_col_coerce_column (f : frame) (c : string) (j : nat) :
  get_loc c (columns f) ≠ Some j →
  iloc_col j (coerce_column f c) = iloc_col j f.
Proof.
  intros Hj. unfold coerce_column.
  destruct (get_loc c (columns f)) as [i|]; [|done].
  unfold iloc_col, map_col. simpl. rewrite <- list_fmap_compose.
  apply list_fmap_ext. intros _ r _. simpl. apply cell_at_upd_ne. congruence.
Qed.

Lemma parse_fold_row (cs : list string) (f : frame) (c : string) (i k : nat) (r : row) :
  NoDup cs →
  wf_frame f → get_loc c (columns f) = Some i → rows f !! k = Some r →
  ∃ r', rows (foldl coerce_column f cs) !! k = Some r' ∧ label r' = label r ∧
    cell_at i r' =
    if bool_decide (c ∈ cs) then coerce_cell (iloc_col i f) (cell_at i r)
    else cell_at i r.
Proof.
  intros Hnd. revert f r.
  induction cs as [|c' cs IH]; intros f r Hwf Hi Hk; simpl.
  - by exists r.
  - apply NoDup_cons in Hnd as [Hc' Hnd].
    destruct (parse_date_column_row f c' k r Hwf Hk) as (r1 & Hk1 & Hl1 & Hc1).
    destruct (narrows_parse_date_column f c') as (Hcols & _ & Hwf1).
    destruct (IH Hnd (coerce_column f c') r1) as (r' & Hk' & Hl' & Hcell);
      [by apply Hwf1|by rewrite Hcols|done|].
    exists r'. split_and!; [done|congruence|].
    rewrite Hcell, (Hc1 i). clear Hcell Hc1.
    destruct (decide (c = c')) as [<-|Hne].
    + rewrite (bool_decide_eq_true_2 (get_loc c (columns f) = Some i)) by done.
      rewrite (bool_decide_eq_true_2 (c ∈ c :: cs)) by apply list_elem_of_here.
      by rewrite (bool_decide_eq_false_2 (c ∈ cs)).
    + assert (get_loc c' (columns f) ≠ Some i) as Hloc.
      { intros Hloc. apply get_loc_lookup in Hi, Hloc. congruence. }
      rewrite (bool_decide_eq_false_2 (get_loc c' (columns f) = Some i)) by done.
      rewrite (iloc_col_coerce_column _ _ _ Hloc).
      rewrite (bool_decide_ext (c ∈ c' :: cs) (c ∈ cs)); [done|].
      rewrite elem_of_cons. split; [by intros [?|?]|by right].
Qed.

Lemma NoDup_date_columns : NoDup date_columns.
Proof.
  unfold date_columns. apply NoDup_ListNoDup.
  repeat constructor; simpl; intuition discriminate.
Qed.

Lemma cell_of_loc (c : string) (f : frame) (i : nat) (r : row) :
  get_loc c (columns f) = Some i → cell_of c f r = cell_at i r.
Proof. intros Hi. unfold cell_of. by rewrite Hi. Qed.

Lemma labels_coerce_dates (f : frame) : labels (coerce_dates f) = labels f.
Proof.
  assert (∀ f c, labels (coerce_column f c) = labels f) as Hstep.
  { intros f0 c. unfold coerce_column. destruct (get_loc c (columns f0)); [|done].
    apply labels_map_col. }
  unfold coerce_dates, date_columns. simpl. by rewrite !Hstep.
Qed.


(** After the parsing a date column holds missing cells and timestamps
    of the representable range. *)
Lemma ts_cell_coerce (col : Series) (c : cell) : ts_cell (coerce_cell col c).
Proof.
  unfold coerce_cell, ts_cell. destruct (parse_cell col c) as [t|]; [|by left].
  destruct (in_bounds t) eqn:Ht; [right; eauto|by left].
Qed.

Lemma col_ts_parse_dates (f : frame) (c : string) (i : nat) :
  wf_frame f → c ∈ date_columns → get_loc c (columns f) = Some i →
  col_ts i (coerce_dates f).
Proof.
  intros Hwf Hc Hi r' (k & Hk)%list_elem_of_lookup.
  assert (is_Some (rows f !! k)) as [r Hr].
  { apply lookup_lt_is_Some. apply lookup_lt_Some in Hk.
    pose proof (labels_coerce_dates f) as Hl. unfold labels in Hl.
    apply (f_equal length) in Hl. rewrite !length_fmap in Hl. lia. }
  destruct (parse_fold_row date_columns f c i k r NoDup_date_columns Hwf Hi Hr)
    as (r'' & Hk' & _ & Hcell).
  fold (coerce_dates f) in Hk'.
  assert (r'' = r') as -> by congruence.
  rewrite bool_decide_eq_true_2 in Hcell by done.
  rewrite Hcell. apply ts_cell_coerce.
Qed.

Lemma ticks_mono (t t' : Z) : (t ≤ t')%Z → (ticks t ≤ ticks t')%Z.
Proof. intros H. unfold ticks. apply Z.div_le_mono; [lia|done]. Qed.

(** Moving a representable timestamp forward never lands on [NaT]. *)
Lemma shift_forward (t d : Z) :
  in_bounds t = true → (0 ≤ d)%Z → shift d (Ts t) = Ts (t + d).
Proof.
  intros Hb Hd. unfold shift.
  assert (is_NaT (t + d) = false) as ->; [|done].
  unfold in_bounds in Hb. apply andb_true_iff in Hb as [Hlo _].
  apply Z.leb_le in Hlo. unfold is_NaT. apply Z.eqb_neq.
  pose proof (ticks_mono t (t + d)) as Hm. unfold ts_min, iNaT in *. lia.
Qed.

Lemma col_ts_parsed (df : frame) (c : string) (i : nat) :
  wf_frame df → c ∈ date_columns → get_loc c (columns (parsed df)) = Some i →
  col_ts i (parsed df).
Proof.
  intros Hwf Hc. rewrite parsed_spec. intros Hi.
  destruct (narrows_parse_dates
              (drop_columns ["authzn_id"]
                 (drop_columns (cols_to_drop (dropna_all df)) (dropna_all df))))
    as (Hceq & _).
  rewrite Hceq in Hi. apply (col_ts_parse_dates _ c); [|done..].
  by apply wf_drop_columns, wf_drop_columns, wf_dropna_all.
Qed.

Lemma Timedelta_days_2 : (0 ≤ Timedelta_days 2)%Z.
Proof. unfold Timedelta_days. lia. Qed.


(** ** Cells that later rules leave alone *)

Lemma keeps_refl (J : nat → Prop) (f : frame) : keeps J f f.
Proof. split; [done|]. intros r Hr. by exists r. Qed.

Lemma keeps_trans (J : nat → Prop) (f g h : frame) :
  keeps J f g → keeps J g h → keeps J f h.
Proof.
  intros [Hc1 H1] [Hc2 H2]. split; [congruence|].
  intros r'' (r' & Hr' & Hl' & Hj')%H2.
  destruct (H1 r' Hr') as (r & Hr & Hl & Hj).
  exists r. split_and!; [done|congruence|].
  intros j Hjj. rewrite Hj', Hj; done.
Qed.

Lemma keeps_sub_rows (J : nat → Prop) (f f' : frame) :
  columns f' = columns f → rows f' `sublist_of` rows f → keeps J f f'.
Proof.
  intros Hc Hs. split; [done|]. intros r Hr. exists r.
  split_and!; [by eapply elem_of_sublist|done..].
Qed.

Lemma keeps_map_col (J : nat → Prop) (i : nat) (g : row → cell) (f : frame) :
  ¬ J i → keeps J f (map_col i g f).
Proof.
  intros Hi. split; [done|]. intros r' (r & -> & Hr)%list_elem_of_fmap.
  exists r. split_and!; [done..|].
  intros j Hj. apply cell_at_upd_ne. by intros ->.
Qed.

Lemma keeps_impute_clm_adjud_ts (J : nat → Prop) (f f' : frame) :
  impute_clm_adjud_ts f = Ok f' →
  (∀ i, get_loc "clm_adjud_ts" (columns f) = Some i → ¬ J i) →
  keeps J f f'.
Proof.
  intros [(ip & ia & _ & Ha & ->)|[_ ->]]%impute_clm_adjud_ts_spec HJ.
  - apply keeps_map_col. by apply HJ.
  - apply keeps_refl.
Qed.

Lemma keeps_impute_categorical (J : nat → Prop) (f : frame) :
  (∀ i, get_loc "procsr_apprv_pay_by_nm" (columns f) = Some i → ¬ J i) →
  keeps J f (impute_categorical f).
Proof.
  intros HJ. rewrite impute_categorical_spec.
  destruct (get_loc _ (columns f)) as [i|] eqn:Hi.
  - apply keeps_map_col. by apply HJ.
  - apply keeps_refl.
Qed.

Lemma keeps_remove_outliers (J : nat → Prop) (f f' : frame) :
  remove_outliers f = Ok f' → keeps J f f'.
Proof. intros [? ?]%remove_outliers_sub. by apply keeps_sub_rows. Qed.

Lemma keeps_drop_duplicates (J : nat → Prop) (f : frame) :
  keeps J f (drop_duplicates f).
Proof.
  apply keeps_sub_rows;
    [apply columns_drop_duplicates|apply rows_drop_duplicates_sublist].
Qed.

(** Two rows of a well-formed frame with one label are one row. *)
Lemma row_by_label (f : frame) (r1 r2 : row) :
  wf_frame f → r1 ∈ rows f → r2 ∈ rows f → label r1 = label r2 → r1 = r2.
Proof.
  intros [_ _ Hl] (i & Hi)%list_elem_of_lookup (j & Hj)%list_elem_of_lookup Heq.
  assert (i = j) as ->; [|congruence].
  eapply NoDup_lookup; [exact Hl|unfold labels..].
  - by rewrite list_lookup_fmap, Hi.
  - rewrite list_lookup_fmap, Hj. simpl. by rewrite Heq.
Qed.

(** ** Rules 5 and 6: the imputed dates *)

Lemma add_delta_cells (d : Z) (s s' : Series) (c : cell) :
  add_delta d s = Ok s' → c ∈ s → c = NA ∨ ∃ t, c = Ts t.
Proof.
  unfold add_delta. revert s'.
  induction s as [|c0 s IH]; intros s' Hs Hc; [by apply elem_of_nil in Hc|].
  simpl in Hs.
  destruct (add_delta_cell d c0) as [c1|e] eqn:H0; simpl in Hs; [|done].
  destruct (mapM (add_delta_cell d) s) as [k|e] eqn:Hk; simpl in Hs; [|done].
  apply elem_of_cons in Hc as [->|Hc]; [|by eapply IH].
  destruct c0; simpl in H0; try done; eauto.
Qed.

Lemma columns_cleaned_eq (df out : frame) :
  cleaned df = Ok out → columns out = columns (parsed df).
Proof. by intros (Hc & _)%narrows_cleaned. Qed.

(** C4: when rule 5 runs on a frame with both columns, a row whose
    [pd_dt] is missing after date parsing and whose [clm_sys_cret_dt] is
    present has, in the output, that same [clm_sys_cret_dt] and
    [pd_dt = clm_sys_cret_dt + 2 days]. *)
Theorem pd_dt_imputed (df out : frame) (r4 r : row) (t : Z) :
  wf_frame df →
  outcome (cleaning df) = Ok out →
  "pd_dt" ∈ columns (parsed df) →
  "clm_sys_cret_dt" ∈ columns (parsed df) →
  r4 ∈ rows (parsed df) → r ∈ rows out → label r = label r4 →
  cell_of "pd_dt" (parsed df) r4 = NA →
  cell_of "clm_sys_cret_dt" (parsed df) r4 = Ts t →
  cell_of "clm_sys_cret_dt" out r = Ts t ∧
  cell_of "pd_dt" out r = Ts (t + Timedelta_days 2).
Proof.
  rewrite cleaning_outcome.
  intros Hwf Hout Hp Hc Hr4 Hr Hlab Hna Hts.
  pose proof (columns_cleaned_eq _ _ Hout) as Hcols.
  pose proof (wf_parsed df Hwf) as Hwf4.
  destruct (cleaned_stages _ _ Hout) as (f5 & f6 & f8 & H5 & H6 & _ & H8 & _ & ->).
  unfold with_pd_dt in H5. set (f4 := parsed df) in *.
  apply impute_pd_dt_spec in H5 as [(ic & ip & Hic & Hip & ->)|[Hno _]].
  2:{ apply has_column_true in Hp, Hc. by rewrite Hp, Hc in Hno. }
  rewrite (cell_of_loc _ _ _ _ Hip) in Hna.
  rewrite (cell_of_loc _ _ _ _ Hic) in Hts.
  rewrite (cell_of_loc "pd_dt" _ ip) by (by rewrite Hcols).
  rewrite (cell_of_loc "clm_sys_cret_dt" _ ic) by (by rewrite Hcols).
  set (g5 := λ r, fill (cell_at ip r) (shift (Timedelta_days 2) (cell_at ic r))) in *.
  assert (ip ≠ ic) as Hne by (by eapply (get_loc_ne "pd_dt" "clm_sys_cret_dt")).
  assert (keeps (λ j, j = ip ∨ j = ic) (map_col ip g5 f4) (drop_duplicates f8))
    as [_ Hkeep].
  { destruct (narrows_impute_clm_adjud_ts _ _ H6) as (Hc6 & _).
    eapply keeps_trans.
    { apply (keeps_impute_clm_adjud_ts _ _ _ H6). simpl.
      intros i Hi [->| ->].
      - by eapply (get_loc_ne "clm_adjud_ts" "pd_dt").
      - by eapply (get_loc_ne "clm_adjud_ts" "clm_sys_cret_dt"). }
    eapply keeps_trans.
    { apply keeps_impute_categorical. rewrite Hc6. simpl.
      intros i Hi [->| ->].
      - by eapply (get_loc_ne "procsr_apprv_pay_by_nm" "pd_dt").
      - by eapply (get_loc_ne "procsr_apprv_pay_by_nm" "clm_sys_cret_dt"). }
    eapply keeps_trans; [by apply keeps_remove_outliers|].
    apply keeps_drop_duplicates. }
  destruct (Hkeep r Hr) as (r5 & Hr5 & Hl5 & Hcell).
  rewrite (Hcell ip), (Hcell ic) by auto.
  simpl in Hr5. apply list_elem_of_fmap in Hr5 as (r4' & -> & Hr4').
  rewrite label_upd in Hl5.
  assert (r4' = r4) as -> by (apply (row_by_label f4); [done..|congruence]).
  rewrite cell_at_upd_eq by (by eapply cell_at_width).
  rewrite cell_at_upd_ne by done.
  unfold g5. rewrite Hna, Hts. split; [done|].
  assert (ts_cell (cell_at ic r4)) as [Hn|(t' & Ht' & Hb)]; [|congruence|].
  { apply (col_ts_parsed df "clm_sys_cret_dt" ic Hwf); [|done..].
    unfold date_columns. do 2 apply list_elem_of_further. apply list_elem_of_here. }
  assert (t' = t) as -> by congruence.
  cbn [fill isna]. apply shift_forward; [done|apply Timedelta_days_2].
Qed.

(** C3: when rule 6 runs on a frame [f5] with both columns, the frame
    rule 5 has returned, a row whose [clm_adjud_ts] is missing there has,
    in the output, [clm_adjud_ts = pd_dt - 2 days], where [pd_dt] is the
    cell of [f5], that is, after rule 5 (the output holds that same
    [pd_dt]), unless the tick count of [pd_dt - 2 days] is the bit
    pattern of [NaT]: then [clm_adjud_ts] stays missing; a [pd_dt] still
    missing leaves [clm_adjud_ts] missing. *)
Theorem clm_adjud_ts_imputed (df f5 out : frame) (r5 r : row) :
  wf_frame df →
  outcome (cleaning df) = Ok out →
  with_pd_dt df = Ok f5 →
  "pd_dt" ∈ columns f5 →
  "clm_adjud_ts" ∈ columns f5 →
  r5 ∈ rows f5 → r ∈ rows out → label r = label r5 →
  cell_of "clm_adjud_ts" f5 r5 = NA →
  cell_of "pd_dt" out r = cell_of "pd_dt" f5 r5 ∧
  (cell_of "pd_dt" f5 r5 = NA ∨ ∃ t, cell_of "pd_dt" f5 r5 = Ts t) ∧
  (∀ t, cell_of "pd_dt" f5 r5 = Ts t →
        ticks (t - Timedelta_days 2) ≠ iNaT →
        cell_of "clm_adjud_ts" out r = Ts (t - Timedelta_days 2)) ∧
  (∀ t, cell_of "pd_dt" f5 r5 = Ts t →
        ticks (t - Timedelta_days 2) = iNaT →
        cell_of "clm_adjud_ts" out r = NA) ∧
  (cell_of "pd_dt" f5 r5 = NA → cell_of "clm_adjud_ts" out r = NA).
Proof.
  rewrite cleaning_outcome.
  intros Hwf Hout H5 Hp Ha Hr5 Hr Hlab Hna.
  pose proof (columns_cleaned_eq _ _ Hout) as Hcols.
  destruct (cleaned_stages _ _ Hout) as (f5' & f6 & f8 & H5' & H6 & _ & H8 & _ & ->).
  assert (f5' = f5) as -> by congruence. clear H5'.
  unfold with_pd_dt in H5.
  destruct (narrows_impute_pd_dt _ _ H5) as (Hc5 & _ & Hwf5).
  specialize (Hwf5 (wf_parsed df Hwf)). rewrite <- Hc5 in Hcols.
  pose proof H6 as H6'.
  apply impute_clm_adjud_ts_spec in H6 as [(ip & ia & Hip & Hia & ->)|[Hno _]].
  2:{ apply has_column_true in Hp, Ha. by rewrite Hp, Ha in Hno. }
  rewrite (cell_of_loc _ _ _ _ Hia) in Hna.
  rewrite !(cell_of_loc "pd_dt" f5 ip) by done.
  rewrite (cell_of_loc "pd_dt" _ ip) by (by rewrite Hcols).
  rewrite (cell_of_loc "clm_adjud_ts" _ ia) by (by rewrite Hcols).
  set (g6 := λ r, fill (cell_at ia r) (shift (- Timedelta_days 2) (cell_at ip r))) in *.
  assert (ia ≠ ip) as Hne by (by eapply (get_loc_ne "clm_adjud_ts" "pd_dt")).
  assert (keeps (λ j, j = ia ∨ j = ip) (map_col ia g6 f5) (drop_duplicates f8))
    as [_ Hkeep].
  { eapply keeps_trans.
    { apply keeps_impute_categorical. simpl. intros i Hi [->| ->].
      - by eapply (get_loc_ne "procsr_apprv_pay_by_nm" "clm_adjud_ts").
      - by eapply (get_loc_ne "procsr_apprv_pay_by_nm" "pd_dt"). }
    eapply keeps_trans; [by apply keeps_remove_outliers|].
    apply keeps_drop_duplicates. }
  destruct (Hkeep r Hr) as (r6 & Hr6 & Hl6 & Hcell).
  rewrite (Hcell ia), (Hcell ip) by auto.
  simpl in Hr6. apply list_elem_of_fmap in Hr6 as (r5' & -> & Hr5').
  rewrite label_upd in Hl6.
  assert (r5' = r5) as -> by (apply (row_by_label f5); [done..|congruence]).
  rewrite cell_at_upd_eq by (by eapply cell_at_width).
  rewrite cell_at_upd_ne by done.
  unfold g6. rewrite Hna. cbn [fill isna].
  split_and!.
  - done.
  - unfold impute_clm_adjud_ts in H6'.
    apply has_column_true in Hp, Ha. rewrite Hp, Ha in H6'. simpl in H6'.
    destruct (add_delta _ (getitem "pd_dt" f5)) as [k|e] eqn:Hk; [|done].
    eapply add_delta_cells; [exact Hk|].
    rewrite (getitem_loc _ _ _ Hip). apply list_elem_of_fmap. by exists r5.
  - intros t -> Hn. unfold shift, is_NaT.
    change (t + - Timedelta_days 2)%Z with (t - Timedelta_days 2)%Z.
    by rewrite (proj2 (Z.eqb_neq _ _) Hn).
  - intros t -> Hn. unfold shift, is_NaT.
    change (t + - Timedelta_days 2)%Z with (t - Timedelta_days 2)%Z.
    by rewrite (proj2 (Z.eqb_eq _ _) Hn).
  - by intros ->.
Qed.

(** ** Rule 8: outliers *)



(** *** What [quantile] needs

    A text among the values makes it raise; on no value at all it is
    [NaN]. *)

Lemma numeric_values_text (s : Series) (x : string) :
  Str x ∈ s → numeric_values s = Raise TypeError.
Proof.
  induction s as [|c s IH]; intros Hx; [by apply elem_of_nil in Hx|].
  apply elem_of_cons in Hx as [<-|Hx]; [done|].
  destruct c as [|n|y|y|t]; simpl; [by apply IH| | |done..].
  - by rewrite IH.
  - by rewrite IH.
Qed.

Lemma int_values_text (s : Series) (x : string) :
  Str x ∈ s → int_values s = None.
Proof.
  induction s as [|c s IH]; intros Hx; [by apply elem_of_nil in Hx|].
  apply elem_of_cons in Hx as [<-|Hx]; [done|].
  destruct c as [|n|y|y|t]; simpl; try done. by rewrite IH.
Qed.

(** ** Rule 9: duplicates *)

Lemma cell_eqb_refl (c : cell) : cell_eqb c c = true.
Proof. by apply bool_decide_eq_true_2. Qed.

Lemma cell_eqb_sym (a b : cell) : cell_eqb a b = cell_eqb b a.
Proof. unfold cell_eqb. by apply bool_decide_ext. Qed.

Lemma cell_eqb_trans (a b c : cell) :
  cell_eqb a b = true → cell_eqb b c = true → cell_eqb a c = true.
Proof. unfold cell_eqb. rewrite !bool_decide_eq_true. congruence. Qed.

Lemma cells_eqb_refl (xs : list cell) : cells_eqb xs xs = true.
Proof. induction xs; simpl; [done|]. by rewrite cell_eqb_refl. Qed.

Lemma cells_eqb_sym (xs ys : list cell) : cells_eqb xs ys = cells_eqb ys xs.
Proof.
  revert ys. induction xs as [|x xs IH]; intros [|y ys]; simpl; try done.
  by rewrite cell_eqb_sym, IH.
Qed.

Lemma cells_eqb_trans (xs ys zs : list cell) :
  cells_eqb xs ys = true → cells_eqb ys zs = true → cells_eqb xs zs = true.
Proof.
  revert ys zs. induction xs as [|x xs IH]; intros [|y ys] [|z zs]; simpl; try done.
  rewrite !andb_true_iff. intros [H1 H2] [H3 H4]. split.
  - by eapply cell_eqb_trans.
  - by eapply IH.
Qed.

Lemma elem_of_select {A : Type} (m : list bool) (l : list A) (x : A) :
  x ∈ select m l ↔ ∃ k, l !! k = Some x ∧ m !! k = Some true.
Proof.
  revert m. induction l as [|y l IH]; intros m.
  - destruct m; simpl; split; try (by intros ?%elem_of_nil);
      by intros (k & Hk & _).
  - destruct m as [|b m]; simpl.
    { split; [by intros ?%elem_of_nil|by intros (k & _ & ?)]. }
    destruct b.
    + rewrite elem_of_cons, IH. split.
      * intros [->|(k & Hk & Hm)]; [by exists 0%nat|by exists (S k)].
      * intros ([|k] & Hk & Hm); simpl in *; [left; congruence|right; eauto].
    + rewrite IH. split.
      * intros (k & Hk & Hm). by exists (S k).
      * intros ([|k] & Hk & Hm); simpl in *; [done|eauto].
Qed.

Lemma duplicated_lookup (seen rs : list row) (k : nat) (r : row) :
  rs !! k = Some r →
  duplicated_from seen rs !! k =
    Some (existsb (λ r', cells_eqb (cells r') (cells r)) (seen ++ take k rs)).
Proof.
  revert seen k. induction rs as [|r0 rs IH]; intros seen [|k] Hk; simpl in *;
    try done.
  - injection Hk as ->. by rewrite app_nil_r.
  - rewrite (IH _ _ Hk). by rewrite <- app_assoc.
Qed.

Lemma elem_of_dedup (seen rs : list row) (r : row) :
  r ∈ select (negb <$> duplicated_from seen rs) rs ↔
  ∃ k, rs !! k = Some r ∧
       existsb (λ r', cells_eqb (cells r') (cells r)) (seen ++ take k rs) = false.
Proof.
  rewrite elem_of_select. split; intros (k & Hk & Hm); exists k; (split; [done|]).
  - rewrite list_lookup_fmap, (duplicated_lookup _ _ _ _ Hk) in Hm.
    simpl in Hm. injection Hm as Hm. by apply negb_true_iff.
  - rewrite list_lookup_fmap, (duplicated_lookup _ _ _ _ Hk). simpl.
    by rewrite Hm.
Qed.

Lemma existsb_false {A : Type} (p : A → bool) (l : list A) :
  existsb p l = false ↔ ∀ x, x ∈ l → p x = false.
Proof.
  rewrite <- not_true_iff_false, existsb_exists. split.
  - intros H x Hx. apply not_true_iff_false. intros Hp. apply H.
    exists x. by rewrite <- list_elem_of_In.
  - intros H (x & Hx%list_elem_of_In & Hp). rewrite (H x Hx) in Hp. done.
Qed.

Lemma dedup_distinct (seen rs : list row) (i j : nat) (ri rj : row) :
  select (negb <$> duplicated_from seen rs) rs !! i = Some ri →
  select (negb <$> duplicated_from seen rs) rs !! j = Some rj →
  (i < j)%nat →
  cells_eqb (cells ri) (cells rj) = false.
Proof.
  revert seen i j. induction rs as [|r0 rs IH]; intros seen i j; simpl; [done|].
  destruct (existsb _ seen) eqn:Hdup; simpl.
  - apply IH.
  - destruct i as [|i], j as [|j]; simpl; try lia.
    + intros [= <-] Hj _.
      apply list_elem_of_lookup_2, elem_of_dedup in Hj as (k & _ & Hk).
      rewrite existsb_false in Hk. apply Hk.
      rewrite !elem_of_app, list_elem_of_singleton. auto.
    + intros Hi Hj Hlt. eapply IH; [exact Hi|exact Hj|lia].
Qed.

Lemma dedup_covers (seen rs : list row) (r : row) :
  r ∈ rs →
  (∃ r', r' ∈ seen ∧ cells_eqb (cells r') (cells r) = true) ∨
  (∃ r', r' ∈ select (negb <$> duplicated_from seen rs) rs ∧
         cells_eqb (cells r') (cells r) = true).
Proof.
  revert seen. induction rs as [|r0 rs IH]; intros seen Hr;
    [by apply elem_of_nil in Hr|].
  simpl. destruct (existsb _ seen) eqn:Hdup; simpl.
  - apply existsb_exists in Hdup as (r'' & Hr''%list_elem_of_In & Heq).
    apply elem_of_cons in Hr as [->|Hr]; [left; eauto|].
    destruct (IH (seen ++ [r0]) Hr) as [(r' & Hr' & Heq')|?]; [|by right].
    left. apply elem_of_app in Hr' as [Hr'|Hr']; [eauto|].
    apply list_elem_of_singleton in Hr' as ->.
    exists r''. split; [done|]. by eapply cells_eqb_trans.
  - apply elem_of_cons in Hr as [->|Hr].
    { right. exists r0. split; [apply list_elem_of_here|apply cells_eqb_refl]. }
    destruct (IH (seen ++ [r0]) Hr) as [(r' & Hr' & Heq')|(r' & Hr' & Heq')].
    + apply elem_of_app in Hr' as [Hr'|Hr']; [left; eauto|].
      apply list_elem_of_singleton in Hr' as ->.
      right. exists r0. split; [apply list_elem_of_here|done].
    + right. exists r'. split; [by apply list_elem_of_further|done].
Qed.

Lemma rows_drop_duplicates (f : frame) :
  columns f ≠ [] →
  rows (drop_duplicates f) = select (negb <$> duplicated_from [] (rows f)) (rows f).
Proof.
  intros Hc. unfold drop_duplicates, empty, duplicated.
  destruct (columns f) as [|c cs]; [done|].
  destruct (rows f) as [|r0 rs] eqn:Hrows; [|done].
  simpl. by rewrite Hrows.
Qed.

(** C6, as the code has it: when the output has at least one column, no
    two of its rows are equal on all columns, its rows are rows of the
    frame [f8] that reaches rule 9, in the same order, a row of [f8] is
    kept exactly when no earlier row of [f8] equals it, and every row of
    [f8] has an equal row in the output. *)
Theorem duplicates_dropped (df f8 out : frame) :
  wf_frame df →
  outcome (cleaning df) = Ok out →
  trimmed df = Ok f8 →
  columns out ≠ [] →
  (∀ i j ri rj, rows out !! i = Some ri → rows out !! j = Some rj → i ≠ j →
                cells_eqb (cells ri) (cells rj) = false) ∧
  rows out `sublist_of` rows f8 ∧
  (∀ k r, rows f8 !! k = Some r →
     (r ∈ rows out ↔
      ∀ k' r', (k' < k)%nat → rows f8 !! k' = Some r' →
               cells_eqb (cells r') (cells r) = false)) ∧
  (∀ r, r ∈ rows f8 →
     ∃ r', r' ∈ rows out ∧ cells_eqb (cells r') (cells r) = true).
Proof.
  rewrite cleaning_outcome. intros Hwf Hout H8 Hcols.
  assert (wf_frame f8) as Hwf8.
  { destruct (cleaned_stages _ _ Hout) as (f5 & f6 & f8' & H5 & H6 & _ & H8' & H8'' & _).
    assert (f8' = f8) as -> by congruence.
    apply (narrows_remove_outliers _ _ H8'), narrows_impute_categorical,
      (narrows_impute_clm_adjud_ts _ _ H6), (narrows_impute_pd_dt _ _ H5),
      wf_parsed, Hwf. }
  unfold cleaned in Hout. rewrite H8 in Hout. simpl in Hout. injection Hout as <-.
  rewrite columns_drop_duplicates in Hcols.
  rewrite (rows_drop_duplicates f8 Hcols).
  split_and!.
  - intros i j ri rj Hi Hj Hne.
    destruct (decide (i < j)%nat).
    + by eapply dedup_distinct.
    + rewrite cells_eqb_sym. eapply dedup_distinct; [exact Hj|exact Hi|lia].
  - apply select_sublist.
  - intros k r Hk.
    assert (NoDup (rows f8)) as Hnd.
    { destruct Hwf8 as [_ _ Hl]. by apply NoDup_fmap_1 in Hl. }
    rewrite elem_of_dedup. simpl. split.
    + intros (k0 & Hk0 & Hex) k' r' Hlt Hk'.
      assert (k0 = k) as -> by (by eapply NoDup_lookup).
      rewrite existsb_false in Hex. apply Hex.
      apply list_elem_of_lookup. exists k'. rewrite lookup_take_lt; done.
    + intros Hall. exists k. split; [done|]. apply existsb_false.
      intros r' (k' & Hk')%list_elem_of_lookup.
      pose proof (lookup_lt_Some _ _ _ Hk') as Hlen.
      rewrite length_take in Hlen.
      rewrite lookup_take_lt in Hk' by lia. apply (Hall k'); [lia|done].
  - intros r Hr.
    destruct (dedup_covers [] (rows f8) r Hr) as [(r' & Hr' & _)|H]; [|done].
    by apply elem_of_nil in Hr'.
Qed.

(** ** The connector *)

Lemma lookups_required (env : gmap string string) :
  [env !! "DATABRICKS_HOST"; env !! "DATABRICKS_TOKEN";
   env !! "DATABRICKS_CLUSTER_ID"; env !! "DATABRICKS_HTTP_PATH"]
  = (λ k, env !! k) <$> required_vars.
Proof. done. Qed.

Lemma get_spark_falsy (env : gmap string string) (k : string) :
  k ∈ required_vars → truthy (env !! k) = false →
  get_spark env = ([], Raise (RuntimeError missing_msg)).
Proof.
  intros Hk Hf. unfold get_spark. rewrite lookups_required.
  assert (forallb truthy ((λ k, env !! k) <$> required_vars) = false) as ->; [|done].
  apply not_true_iff_false. rewrite forallb_forall. intros Hall.
  assert (truthy (env !! k) = true) as Ht; [|congruence].
  apply Hall, list_elem_of_In, list_elem_of_fmap. by exists k.
Qed.

Lemma get_spark_truthy (env : gmap string string) :
  (∀ k, k ∈ required_vars → truthy (env !! k) = true) →
  ∃ s, get_spark env = ([GetOrCreate s], Ok s).
Proof.
  intros Hall. unfold get_spark. rewrite lookups_required.
  assert (forallb truthy ((λ k, env !! k) <$> required_vars) = true) as ->.
  { apply forallb_forall. intros v (k & -> & Hk)%list_elem_of_In%list_elem_of_fmap.
    by apply Hall. }
  simpl. eauto.
Qed.

Lemma main_raises (w : world) (e : exn) :
  get_spark (environ w) = ([], Raise e) → main w = ([], Raise e).
Proof. intros H. unfold main. by rewrite H. Qed.

(** C7, as the code has it: when one of the four parameters is absent,
    [get_spark] raises the configuration error, whose message is the same
    whichever is absent, [main] ends there with an empty trace, so no table
    is read; when the four are present and none is the empty string,
    [get_spark] raises nothing and returns the session. *)
Theorem connector_checks (w : world) :
  ((∃ k, k ∈ required_vars ∧ environ w !! k = None) →
     get_spark (environ w) = ([], Raise (RuntimeError missing_msg)) ∧
     main w = ([], Raise (RuntimeError missing_msg)) ∧
     ∀ name, ReadTable name ∉ trace (main w)) ∧
  ((∀ k, k ∈ required_vars → ∃ v, environ w !! k = Some v ∧ v ≠ "") →
     ∃ s, get_spark (environ w) = ([GetOrCreate s], Ok s)).
Proof.
  split.
  - intros (k & Hk & Hnone).
    assert (get_spark (environ w) = ([], Raise (RuntimeError missing_msg))) as Hg.
    { apply (get_spark_falsy _ k Hk). by rewrite Hnone. }
    split_and!; [done|by apply main_raises|].
    intros name. rewrite (main_raises _ _ Hg). apply not_elem_of_nil.
  - intros Hall. apply get_spark_truthy. intros k Hk.
    destruct (Hall k Hk) as (v & -> & Hv). simpl.
    apply negb_true_iff, String.eqb_neq, Hv.
Qed.

(** C10: a required variable set to the empty string has the effect of
    an absent one: [get_spark] ends as it does once the variable is
    removed, with the configuration error, and [main] ends with it on an
    empty trace, before any print and any call to the engine. *)
Theorem empty_value_is_absent (w : world) (k : string) :
  k ∈ required_vars →
  environ w !! k = Some "" →
  get_spark (environ w) = get_spark (delete k (environ w)) ∧
  get_spark (environ w) = ([], Raise (RuntimeError missing_msg)) ∧
  main w = ([], Raise (RuntimeError missing_msg)).
Proof.
  intros Hk Hempty.
  assert (get_spark (environ w) = ([], Raise (RuntimeError missing_msg))) as Hg.
  { apply (get_spark_falsy _ k Hk). by rewrite Hempty. }
  split_and!; [|done|by apply main_raises].
  rewrite Hg. symmetry. apply (get_spark_falsy _ k Hk).
  by rewrite lookup_delete_eq.
Qed.

End CleaningFacts.

(** ** Examples *)

Lemma authzn_id_absent_witness :
  ("authzn_id" ∉ columns without_authzn_cleaned) ∧
  drop_columns ["authzn_id"] (toPandas without_authzn) = toPandas without_authzn.
Proof.
  destruct (authzn_id_absent (P := sample_parser) (toPandas with_authzn)
              without_authzn_cleaned (toPandas without_authzn)) as [H1 H2].
  split.
  - apply H1. vm_compute. reflexivity.
  - apply H2.
    + apply wf_frameb_true. vm_compute. reflexivity.
    + vm_compute. intros H. inversion H as [|? ? ? H']; inversion H'.
Defined.

Lemma sparse_column_absent_witness :
  outcome (cleaning (P := sample_parser) (toPandas sparse_plan))
    = Ok sparse_plan_cleaned ∧
  "plan_cd" ∉ columns sparse_plan_cleaned.
Proof.
  assert (outcome (cleaning (P := sample_parser) (toPandas sparse_plan))
            = Ok sparse_plan_cleaned) as Hout by (vm_compute; reflexivity).
  split; [exact Hout|].
  apply (sparse_column_absent (P := sample_parser) (toPandas sparse_plan)
           sparse_plan_cleaned 1 "plan_cd" Hout).
  - reflexivity.
  - vm_compute. lia.
Defined.

(** The claim C2 takes the share over the rows of the input.  Here the
    first column is empty in one input row out of two, more than 40
    percent, and is still a column of the cleaned frame: the empty row is
    dropped before the shares are taken. *)
Lemma sparse_column_counterexample :
  columns (toPandas half_empty) !! 0%nat = Some "clm_id" ∧
  (40 * length (rows (toPandas half_empty))
     < 100 * count_na (iloc_col 0 (toPandas half_empty)))%nat ∧
  outcome (cleaning (P := sample_parser) (toPandas half_empty))
    = Ok half_empty_cleaned ∧
  "clm_id" ∈ columns half_empty_cleaned.
Proof.
  split_and!.
  - reflexivity.
  - vm_compute. lia.
  - vm_compute. reflexivity.
  - apply list_elem_of_here.
Qed.

Lemma empty_rows_dropped_witness :
  (∀ r, r ∈ rows sparse_plan_cleaned →
     ∃ r0, r0 ∈ rows (toPandas sparse_plan) ∧ label r0 = label r ∧
           existsb notna (cells r0) = true) ∧
  (∀ r, r ∈ rows (dropna_all (toPandas sparse_plan)) →
     existsb notna (cells r) = true) ∧
  dropna_all (dropna_all (toPandas sparse_plan)) = dropna_all (toPandas sparse_plan).
Proof.
  apply (empty_rows_dropped (P := sample_parser) (toPandas sparse_plan)
           sparse_plan_cleaned).
  vm_compute. reflexivity.
Defined.

(** The claim C5 speaks of the columns of the output.  Here the third
    row has a value in [plan_cd] only; that column is dropped by rule 2,
    the row stays, and it is missing in every column that is left:
    running rule 1 on the output would drop it. *)
Lemma empty_rows_counterexample :
  outcome (cleaning (P := sample_parser) (toPandas sparse_plan))
    = Ok sparse_plan_cleaned ∧
  rows sparse_plan_cleaned !! 2%nat = Some (Row 2 [NA]) ∧
  forallb isna (cells (Row 2 [NA])) = true ∧
  rows (dropna_all sparse_plan_cleaned) = [Row 0 [Num 1]; Row 1 [Num 2]].
Proof. split_and!; vm_compute; reflexivity. Qed.


(** The resolution of the date columns decides what is in range: the
    first day of 2300 is out of range, hence missing, at nanosecond
    resolution, and a timestamp at microsecond resolution. *)
Lemma resolution_decides_range :
  coerce_cell (P := sample_parser) [Str "2300-01-01"] (Str "2300-01-01") = NA ∧
  coerce_cell (P := micro_parser) [Str "2300-01-01"] (Str "2300-01-01")
    = Ts (Timedelta_days (days_from_civil 2300 1 1)) ∧
  (ts_max < Timedelta_days (days_from_civil 2300 1 1))%Z.
Proof. split_and!; vm_compute; reflexivity. Qed.

Lemma pd_dt_imputed_witness :
  cell_of "clm_sys_cret_dt" dated_claims_cleaned
    (Row 1 [Num 2; Ts 1704758400000000000; Ts 1704585600000000000;
            Ts 1704585600000000000])
  = Ts 1704585600000000000 ∧
  cell_of "pd_dt" dated_claims_cleaned
    (Row 1 [Num 2; Ts 1704758400000000000; Ts 1704585600000000000;
            Ts 1704585600000000000])
  = Ts (1704585600000000000 + Timedelta_days 2).
Proof.
  apply (pd_dt_imputed (P := sample_parser) (toPandas dated_claims)
           dated_claims_cleaned
           (Row 1 [Num 2; NA; NA; Ts 1704585600000000000])).
  - apply wf_frameb_true. vm_compute. reflexivity.
  - vm_compute. reflexivity.
  - vm_compute. apply list_elem_of_further, list_elem_of_here.
  - vm_compute. do 3 apply list_elem_of_further. apply list_elem_of_here.
  - vm_compute. apply list_elem_of_further, list_elem_of_here.
  - unfold dated_claims_cleaned. simpl.
    apply list_elem_of_further, list_elem_of_here.
  - reflexivity.
  - vm_compute. reflexivity.
  - vm_compute. reflexivity.
Defined.

Lemma clm_adjud_ts_imputed_witness :
  cell_of "pd_dt" dated_claims_cleaned
    (Row 3 [Num 4; Ts 1705276800000000000; Ts 1705104000000000000;
            Ts 1704931200000000000])
  = Ts 1705276800000000000 ∧
  cell_of "clm_adjud_ts" dated_claims_cleaned
    (Row 3 [Num 4; Ts 1705276800000000000; Ts 1705104000000000000;
            Ts 1704931200000000000])
  = Ts (1705276800000000000 - Timedelta_days 2).
Proof.
  destruct (clm_adjud_ts_imputed (P := sample_parser) (toPandas dated_claims)
              dated_claims_with_pd_dt dated_claims_cleaned
              (Row 3 [Num 4; Ts 1705276800000000000; NA; Ts 1704931200000000000])
              (Row 3 [Num 4; Ts 1705276800000000000; Ts 1705104000000000000;
                      Ts 1704931200000000000]))
    as (Hpd & _ & Hts & _ & _).
  - apply wf_frameb_true. vm_compute. reflexivity.
  - vm_compute. reflexivity.
  - vm_compute. reflexivity.
  - simpl. apply list_elem_of_further, list_elem_of_here.
  - simpl. do 2 apply list_elem_of_further. apply list_elem_of_here.
  - simpl. do 3 apply list_elem_of_further. apply list_elem_of_here.
  - simpl. do 3 apply list_elem_of_further. apply list_elem_of_here.
  - reflexivity.
  - vm_compute. reflexivity.
  - split; [exact Hpd|]. apply Hts; [vm_compute; reflexivity|].
    vm_compute. discriminate.
Defined.


(** The quartiles [quantile] computes: on floats with a missing value, on
    integers, on one value and on none. *)
Lemma quartile_examples :
  quantile [Num 100; Num 110; Num 120; Num 105; Num 115; Num 1000000; NA]
           (float_lit 25 100) = Ok (sf 106.25) ∧
  quantile [Num 100; Num 110; Num 120; Num 105; Num 115; Num 1000000; NA]
           (float_lit 75 100) = Ok (sf 118.75) ∧
  quantile [Int 4; Int 1; Int 3; Int 2] (float_lit 25 100) = Ok (sf 1.75) ∧
  quantile [Int 4; Int 1; Int 3; Int 2] (float_lit 75 100) = Ok (sf 3.25) ∧
  quantile [Num 7] (float_lit 25 100) = Ok (sf 7) ∧
  quantile [NA; NA] (float_lit 25 100) = Ok S754_nan ∧
  quantile [] (float_lit 75 100) = Ok S754_nan ∧
  quantile [Num 1; Str "n/a"] (float_lit 25 100) = Raise TypeError.
Proof. split_and!; vm_compute; reflexivity. Qed.


(** The same on floats: for the amounts 0.1, 0.1, 0.2, 0.3 and 0.6 the
    difference of the quartiles is the float just below 0.2, the upper
    bound is, as computed, the float 0.6, and the row with 0.6 is kept. *)
Lemma rounded_bound_keeps :
  outcome (cleaning (P := sample_parser) (toPandas rounded_amounts))
    = Ok (Frame ["totl_billd_amt"]
            [Row 0 [Num 0.1]; Row 2 [Num 0.2]; Row 3 [Num 0.3]; Row 4 [Num 0.6]]) ∧
  quantile (getitem "totl_billd_amt" (toPandas rounded_amounts)) (float_lit 25 100)
    = Ok (sf 0.1) ∧
  quantile (getitem "totl_billd_amt" (toPandas rounded_amounts)) (float_lit 75 100)
    = Ok (sf 0.3) ∧
  fsub (sf 0.3) (sf 0.1) = sf (Ffin false 7205759403792793 (-55)) ∧
  sf 0.2 = sf (Ffin false 7205759403792794 (-55)) ∧
  upper_bound (sf 0.1) (sf 0.3) = sf 0.6.
Proof. split_and!; vm_compute; reflexivity. Qed.

(** The claim C3 takes the imputed [clm_adjud_ts] to be [pd_dt - 2 days].
    Here the first [pd_dt] is in 1677, two days after the instant whose
    tick count is the bit pattern of [NaT]: the subtraction of line 82
    yields that pattern, and the [clm_adjud_ts] of the row stays missing
    beside its [pd_dt]. *)
Lemma clm_adjud_ts_counterexample :
  with_pd_dt (P := sample_parser) (toPandas early_claims)
    = Ok (toPandas early_claims) ∧
  outcome (cleaning (P := sample_parser) (toPandas early_claims))
    = Ok early_claims_cleaned ∧
  rows (toPandas early_claims) !! 0%nat
    = Some (Row 0 [Ts (-9223199236854775808); NA]) ∧
  rows early_claims_cleaned !! 0%nat
    = Some (Row 0 [Ts (-9223199236854775808); NA]) ∧
  cell_of "pd_dt" early_claims_cleaned (Row 0 [Ts (-9223199236854775808); NA])
    = Ts (-9223199236854775808) ∧
  cell_of "clm_adjud_ts" early_claims_cleaned (Row 0 [Ts (-9223199236854775808); NA])
    = NA ∧
  (-9223199236854775808 - Timedelta_days 2)%Z = iNaT.
Proof. split_and!; vm_compute; reflexivity. Qed.

Lemma duplicates_dropped_witness :
  (∀ i j ri rj, rows repeated_claims_cleaned !! i = Some ri →
                rows repeated_claims_cleaned !! j = Some rj → i ≠ j →
                cells_eqb (cells ri) (cells rj) = false) ∧
  rows repeated_claims_cleaned `sublist_of` rows (toPandas repeated_claims) ∧
  (∀ k r, rows (toPandas repeated_claims) !! k = Some r →
     (r ∈ rows repeated_claims_cleaned ↔
      ∀ k' r', (k' < k)%nat → rows (toPandas repeated_claims) !! k' = Some r' →
               cells_eqb (cells r') (cells r) = false)) ∧
  (∀ r, r ∈ rows (toPandas repeated_claims) →
     ∃ r', r' ∈ rows repeated_claims_cleaned ∧
           cells_eqb (cells r') (cells r) = true).
Proof.
  apply (duplicates_dropped (P := sample_parser) (toPandas repeated_claims)
           (toPandas repeated_claims) repeated_claims_cleaned).
  - apply wf_frameb_true. vm_compute. reflexivity.
  - vm_compute. reflexivity.
  - vm_compute. reflexivity.
  - discriminate.
Defined.

(** The claim C6 holds of no frame without columns.  Here line 71 drops
    the only column; two rows are left, equal on all of the (zero)
    columns, and [drop_duplicates] returns the frame as it is. *)
Lemma duplicates_counterexample :
  outcome (cleaning (P := sample_parser) (toPandas only_authzn))
    = Ok only_authzn_cleaned ∧
  rows only_authzn_cleaned !! 0%nat = Some (Row 0 []) ∧
  rows only_authzn_cleaned !! 1%nat = Some (Row 1 []) ∧
  cells_eqb (cells (Row 0 [])) (cells (Row 1 [])) = true.
Proof. split_and!; vm_compute; reflexivity. Qed.

Lemma connector_checks_witness :
  (get_spark no_token_environ = ([], Raise (RuntimeError missing_msg)) ∧
   main (P := sample_parser) (World no_token_environ ∅)
     = ([], Raise (RuntimeError missing_msg)) ∧
   ∀ name, ReadTable name
           ∉ trace (main (P := sample_parser) (World no_token_environ ∅))) ∧
  ∃ s, get_spark full_environ = ([GetOrCreate s], Ok s).
Proof.
  split.
  - apply (connector_checks (P := sample_parser) (World no_token_environ ∅)).
    exists "DATABRICKS_TOKEN". split.
    + apply list_elem_of_further, list_elem_of_here.
    + vm_compute. reflexivity.
  - apply (connector_checks (P := sample_parser) (World full_environ ∅)).
    intros k Hk. unfold required_vars in Hk.
    repeat (apply elem_of_cons in Hk as [->|Hk]);
      [eexists; split; [vm_compute; reflexivity|discriminate]..|].
    by apply elem_of_nil in Hk.
Defined.

(** The claim C7 ends: if all four are present, no such error is raised.
    Here the four are present, the host as the empty string, and
    [get_spark] raises the configuration error. *)
Lemma connector_counterexample :
  empty_host_environ !! "DATABRICKS_HOST" = Some "" ∧
  empty_host_environ !! "DATABRICKS_TOKEN" = Some "dapi123" ∧
  empty_host_environ !! "DATABRICKS_CLUSTER_ID" = Some "0101-abc" ∧
  empty_host_environ !! "DATABRICKS_HTTP_PATH" = Some "/sql/1.0/warehouses/w1" ∧
  get_spark empty_host_environ = ([], Raise (RuntimeError missing_msg)).
Proof. split_and!; vm_compute; reflexivity. Qed.

Lemma empty_value_is_absent_witness :
  get_spark empty_host_environ
    = get_spark (delete "DATABRICKS_HOST" empty_host_environ) ∧
  get_spark empty_host_environ = ([], Raise (RuntimeError missing_msg)) ∧
  main (P := sample_parser) (World empty_host_environ ∅)
    = ([], Raise (RuntimeError missing_msg)).
Proof.
  apply (empty_value_is_absent (P := sample_parser) (World empty_host_environ ∅)
           "DATABRICKS_HOST").
  - apply list_elem_of_here.
  - vm_compute. reflexivity.
Defined.

(** * Further properties of the rules *)

(** ** Cells by column name *)

Lemma cell_select (names cols : list string) (cs : list cell) (c : string) :
  length cs = length cols → c ∉ names →
  match get_loc c (select (keep_mask names cols) cols) with
  | Some i => default NA (select (keep_mask names cols) cs !! i)
  | None => NA
  end
  = match get_loc c cols with
    | Some i => default NA (cs !! i)
    | None => NA
    end.
Proof.
  revert cs. induction cols as [|c' cols IH]; intros [|x cs] Hlen Hc;
    simpl in *; try done.
  destruct (decide (c' ∈ names)) as [Hin|Hout].
  - rewrite bool_decide_eq_true_2 by done. simpl.
    destruct (String.eqb_spec c c') as [->|Hne]; [done|].
    rewrite IH by (done || lia).
    by destruct (get_loc c cols).
  - rewrite bool_decide_eq_false_2 by done. simpl.
    destruct (String.eqb_spec c c') as [->|Hne]; [done|].
    specialize (IH cs ltac:(lia) Hc).
    destruct (get_loc c (select (keep_mask names cols) cols)) as [i|],
      (get_loc c cols) as [j|]; simpl in *; done.
Qed.

Lemma carries_refl (C : string → Prop) (f : frame) : carries C f f.
Proof. split; [done|]. intros r Hr. by exists r. Qed.

Lemma carries_trans (C : string → Prop) (f g h : frame) :
  carries C f g → carries C g h → carries C f h.
Proof.
  intros [Hc1 H1] [Hc2 H2]. split; [by auto|].
  intros r'' (r' & Hr' & Hl' & Hj')%H2.
  destruct (H1 r' Hr') as (r & Hr & Hl & Hj).
  exists r. split_and!; [done|congruence|].
  intros c HC Hin. rewrite Hj', Hj; auto.
Qed.

Lemma carries_sub_rows (C : string → Prop) (f f' : frame) :
  columns f' = columns f → rows f' `sublist_of` rows f → carries C f f'.
Proof.
  intros Hc Hs. split; [by rewrite Hc|]. intros r Hr. exists r.
  split_and!; [by eapply elem_of_sublist|done|].
  intros c _ _. unfold cell_of. by rewrite Hc.
Qed.

Lemma carries_drop_columns (C : string → Prop) (names : list string) (f : frame) :
  wf_frame f → carries C f (drop_columns names f).
Proof.
  intros [_ Hw _]. split.
  - intros c Hc. by apply elem_of_columns_drop in Hc as [? _].
  - intros r' Hr'. simpl in Hr'. apply list_elem_of_fmap in Hr' as (r & -> & Hr).
    exists r. split_and!; [done..|].
    intros c _ [_ Hc]%elem_of_columns_drop.
    rewrite Forall_forall in Hw.
    unfold cell_of, cell_at. simpl. apply cell_select; [by apply Hw|done].
Qed.

Lemma carries_map_col (C : string → Prop) (i : nat) (g : row → cell)
    (f : frame) (ci : string) :
  columns f !! i = Some ci → ¬ C ci → carries C f (map_col i g f).
Proof.
  intros Hi HC. split; [done|].
  intros r' (r & -> & Hr)%list_elem_of_fmap.
  exists r. split_and!; [done..|].
  intros c Hc _. unfold cell_of. simpl.
  destruct (get_loc c (columns f)) as [j|] eqn:Hj; [|done].
  apply cell_at_upd_ne. intros ->.
  apply get_loc_lookup in Hj. congruence.
Qed.

Lemma carries_column_stage (C : string → Prop) (c : string) (g : nat → row → cell)
    (f : frame) :
  ¬ C c →
  carries C f match get_loc c (columns f) with
              | Some i => map_col i (g i) f
              | None => f
              end.
Proof.
  intros HC. destruct (get_loc c (columns f)) as [i|] eqn:Hi.
  - eapply carries_map_col; [by apply get_loc_lookup|done].
  - apply carries_refl.
Qed.

(** Membership in a list that is written out. *)
Ltac in_list :=
  repeat first [apply list_elem_of_here | apply list_elem_of_further].

Ltac not_in_list H :=
  repeat (apply elem_of_cons in H as [H|H]; [discriminate H|]);
  by apply elem_of_nil in H.

Lemma date_columns_rewritten (c : string) :
  c ∈ date_columns → c ∈ rewritten_columns.
Proof.
  unfold date_columns, rewritten_columns. intros Hc.
  repeat (apply elem_of_cons in Hc as [->|Hc]; [in_list|]).
  by apply elem_of_nil in Hc.
Qed.

Section MoreFacts.

Context {P : DatetimeParser} {E : Engine}.

Lemma carries_parse_dates (C : string → Prop) (f : frame) :
  (∀ c, c ∈ date_columns → ¬ C c) → carries C f (coerce_dates f).
Proof.
  intros HC. unfold coerce_dates, date_columns in *. simpl.
  assert (∀ c f, c ∈ ["pd_dt"; "clm_adjud_ts"; "clm_sys_cret_dt"] →
                 carries C f (coerce_column f c)) as Hstep.
  { intros c f0 Hc. unfold coerce_column.
    apply (carries_column_stage C c
             (λ i r, coerce_cell (iloc_col i f0) (cell_at i r))).
    by apply HC. }
  eapply carries_trans; [|apply Hstep; in_list].
  eapply carries_trans; [|apply Hstep; in_list].
  apply Hstep. in_list.
Qed.

Lemma carries_impute_pd_dt (C : string → Prop) (f f' : frame) :
  impute_pd_dt f = Ok f' → ¬ C "pd_dt" → carries C f f'.
Proof.
  intros [(ic & ip & _ & Hip & ->)|[_ ->]]%impute_pd_dt_spec HC.
  - eapply carries_map_col; [by apply get_loc_lookup|done].
  - apply carries_refl.
Qed.

Lemma carries_impute_clm_adjud_ts (C : string → Prop) (f f' : frame) :
  impute_clm_adjud_ts f = Ok f' → ¬ C "clm_adjud_ts" → carries C f f'.
Proof.
  intros [(ip & ia & _ & Hia & ->)|[_ ->]]%impute_clm_adjud_ts_spec HC.
  - eapply carries_map_col; [by apply get_loc_lookup|done].
  - apply carries_refl.
Qed.

Lemma carries_impute_categorical (C : string → Prop) (f : frame) :
  ¬ C "procsr_apprv_pay_by_nm" → carries C f (impute_categorical f).
Proof.
  intros HC. rewrite impute_categorical_spec.
  by apply (carries_column_stage C _ (λ i r, fill (cell_at i r) (Str "unknown"))).
Qed.

Lemma carries_remove_outliers (C : string → Prop) (f f' : frame) :
  remove_outliers f = Ok f' → carries C f f'.
Proof. intros [? ?]%remove_outliers_sub. by apply carries_sub_rows. Qed.

Lemma carries_drop_duplicates (C : string → Prop) (f : frame) :
  carries C f (drop_duplicates f).
Proof.
  apply carries_sub_rows;
    [apply columns_drop_duplicates|apply rows_drop_duplicates_sublist].
Qed.

(** Up to the date parsing only the date columns change. *)
Lemma carries_parsed (C : string → Prop) (df : frame) :
  wf_frame df → (∀ c, c ∈ date_columns → ¬ C c) → carries C df (parsed df).
Proof.
  intros Hwf HC. rewrite parsed_spec.
  eapply carries_trans; [|by apply carries_parse_dates].
  eapply carries_trans;
    [|by apply carries_drop_columns, wf_drop_columns, wf_dropna_all].
  eapply carries_trans; [|by apply carries_drop_columns, wf_dropna_all].
  apply carries_sub_rows; [done|apply dropna_all_sublist].
Qed.

Lemma wf_with_pd_dt (df f5 : frame) :
  wf_frame df → with_pd_dt df = Ok f5 → wf_frame f5.
Proof.
  intros Hwf H5. by apply (narrows_impute_pd_dt _ _ H5), wf_parsed.
Qed.

Lemma wf_imputed (df f7 : frame) :
  wf_frame df → imputed df = Ok f7 → wf_frame f7.
Proof.
  unfold imputed. intros Hwf H7.
  destruct (with_pd_dt df) as [f5|e] eqn:H5; simpl in H7; [|done].
  destruct (impute_clm_adjud_ts f5) as [f6|e] eqn:H6; simpl in H7; [|done].
  injection H7 as <-.
  apply narrows_impute_categorical, (narrows_impute_clm_adjud_ts _ _ H6).
  by eapply wf_with_pd_dt.
Qed.

(** The frame that reaches rule 7, and what it carries of the input. *)
Lemma carries_before_categorical (C : string → Prop) (df f5 f6 : frame) :
  wf_frame df →
  with_pd_dt df = Ok f5 → impute_clm_adjud_ts f5 = Ok f6 →
  (∀ c, c ∈ date_columns → ¬ C c) →
  carries C df f6.
Proof.
  intros Hwf H5 H6 HC.
  eapply carries_trans; [by apply carries_parsed|].
  eapply carries_trans.
  - apply (carries_impute_pd_dt C _ _ H5), HC. unfold date_columns. in_list.
  - apply (carries_impute_clm_adjud_ts C _ _ H6), HC. unfold date_columns. in_list.
Qed.

(** X2: A column the rules do not write to holds, in every output row, the
    cell of the input row with the same label. *)
Theorem other_columns_untouched (df out : frame) (c : string) (r : row) :
  wf_frame df →
  outcome (cleaning df) = Ok out →
  c ∉ rewritten_columns → c ∈ columns out → r ∈ rows out →
  ∃ r0, r0 ∈ rows df ∧ label r0 = label r ∧ cell_of c out r = cell_of c df r0.
Proof.
  rewrite cleaning_outcome. intros Hwf Hout Hc Hin Hr.
  destruct (cleaned_stages _ _ Hout) as (f5 & f6 & f8 & H5 & H6 & _ & H8 & _ & ->).
  assert (carries (λ c, c ∉ rewritten_columns) df (drop_duplicates f8)) as [_ Hcar].
  { eapply carries_trans.
    { apply (carries_before_categorical _ _ _ _ Hwf H5 H6).
      intros c' Hc' Hn. by apply Hn, date_columns_rewritten. }
    eapply carries_trans.
    { apply carries_impute_categorical. intros Hn. apply Hn.
      unfold rewritten_columns. in_list. }
    eapply carries_trans; [by apply carries_remove_outliers|].
    apply carries_drop_duplicates. }
  destruct (Hcar r Hr) as (r0 & Hr0 & Hl & Hcell).
  exists r0. split_and!; [done..|]. by apply Hcell.
Qed.

(** X1: Rule 7: when [procsr_apprv_pay_by_nm] is a column of the output, no
    output row is missing there: the row holds the value of the input row
    with the same label, or ["unknown"] where that one is missing. *)
Theorem categorical_filled (df out : frame) (r : row) :
  wf_frame df →
  outcome (cleaning df) = Ok out →
  "procsr_apprv_pay_by_nm" ∈ columns out → r ∈ rows out →
  cell_of "procsr_apprv_pay_by_nm" out r ≠ NA ∧
  ∃ r0, r0 ∈ rows df ∧ label r0 = label r ∧
    (cell_of "procsr_apprv_pay_by_nm" df r0 = NA →
     cell_of "procsr_apprv_pay_by_nm" out r = Str "unknown") ∧
    (cell_of "procsr_apprv_pay_by_nm" df r0 ≠ NA →
     cell_of "procsr_apprv_pay_by_nm" out r
       = cell_of "procsr_apprv_pay_by_nm" df r0).
Proof.
  rewrite cleaning_outcome. intros Hwf Hout Hin Hr.
  pose proof (columns_cleaned_eq _ _ Hout) as Hcols.
  destruct (cleaned_stages _ _ Hout) as (f5 & f6 & f8 & H5 & H6 & H7 & H8 & _ & ->).
  set (c := "procsr_apprv_pay_by_nm") in *.
  pose proof (carries_before_categorical (λ c', c' = c) _ _ _ Hwf H5 H6) as [_ Hcar].
  { unfold date_columns, c. intros c' Hc' ->. not_in_list Hc'. }
  assert (wf_frame f6) as Hwf6.
  { apply (narrows_impute_clm_adjud_ts _ _ H6). by eapply wf_with_pd_dt. }
  assert (columns f6 = columns (parsed df)) as Hc6.
  { destruct (narrows_impute_clm_adjud_ts _ _ H6) as (-> & _).
    by destruct (narrows_impute_pd_dt _ _ H5) as (-> & _). }
  assert (c ∈ columns f6) as Hin6 by (by rewrite Hc6, <- Hcols).
  destruct (proj2 (get_loc_is_Some c (columns f6)) Hin6) as [i Hi].
  rewrite impute_categorical_spec in H8. fold c in H8. rewrite Hi in H8.
  set (g := λ r, fill (cell_at i r) (Str "unknown")) in *.
  assert (keeps (λ j, j = i) (map_col i g f6) (drop_duplicates f8)) as [_ Hkeep].
  { eapply keeps_trans; [by apply keeps_remove_outliers|].
    apply keeps_drop_duplicates. }
  destruct (Hkeep r Hr) as (r7 & Hr7 & Hl7 & Hcell).
  simpl in Hr7. apply list_elem_of_fmap in Hr7 as (r6 & -> & Hr6).
  rewrite label_upd in Hl7.
  rewrite (cell_of_loc c _ i) by (by rewrite Hcols, <- Hc6).
  rewrite (Hcell i) by done.
  rewrite cell_at_upd_eq by (by eapply cell_at_width).
  destruct (Hcar r6 Hr6) as (r0 & Hr0 & Hl0 & Hcell0).
  specialize (Hcell0 c eq_refl Hin6).
  rewrite (cell_of_loc c f6 i) in Hcell0 by done.
  unfold g. rewrite Hcell0.
  split.
  - by destruct (cell_of c df r0).
  - exists r0. split_and!; [done|congruence|..].
    + by intros ->.
    + by destruct (cell_of c df r0).
Qed.

(** X3: The rules only remove: the columns of the output are columns of the
    input, and its rows are rows of the input (by label), both in the
    input's order. *)
Theorem cleaning_only_removes (df out : frame) :
  outcome (cleaning df) = Ok out →
  columns out `sublist_of` columns df ∧
  labels out `sublist_of` labels df ∧
  (length (rows out) ≤ length (rows df))%nat.
Proof.
  rewrite cleaning_outcome. intros Hout.
  destruct (narrows_cleaned _ _ Hout) as (Hc & Hl & _).
  destruct (narrows_parsed df) as (Hc4 & _).
  assert (labels out `sublist_of` labels df) as Hlab.
  { etransitivity; [exact Hl|]. etransitivity; [apply labels_parsed|].
    apply labels_sublist_rows, dropna_all_sublist. }
  split_and!.
  - rewrite Hc, Hc4. simpl.
    etransitivity; [apply select_sublist|]. apply select_sublist.
  - done.
  - apply sublist_length in Hlab. unfold labels in Hlab.
    by rewrite !length_fmap in Hlab.
Qed.

(** X4: The frame the rules return for a table with distinct column names is
    well formed: distinct column names, one cell per column in every row,
    distinct labels. *)
Theorem cleaned_well_formed (t : table) (out : frame) :
  wf_table t →
  outcome (cleaning (toPandas t)) = Ok out →
  wf_frame out.
Proof.
  rewrite cleaning_outcome. intros Hwf Hout.
  by apply (narrows_cleaned _ _ Hout), wf_parsed, wf_toPandas.
Qed.

(** ** Dates that are present, and the range of the date columns *)

Lemma keeps_present_refl (i : nat) (f : frame) : keeps_present i f f.
Proof. intros r Hr. by exists r. Qed.

Lemma keeps_present_trans (i : nat) (f g h : frame) :
  keeps_present i f g → keeps_present i g h → keeps_present i f h.
Proof.
  intros H1 H2 r'' (r' & Hr' & Hl' & Hj')%H2.
  destruct (H1 r' Hr') as (r & Hr & Hl & Hj).
  exists r. split_and!; [done|congruence|].
  intros Hna. rewrite Hj', Hj; [done..|]. by rewrite Hj.
Qed.

Lemma keeps_present_keeps (i : nat) (f f' : frame) :
  keeps (λ j, j = i) f f' → keeps_present i f f'.
Proof.
  intros [_ H] r' (r & Hr & Hl & Hj)%H. exists r. split_and!; [done..|].
  intros _. by apply Hj.
Qed.

Lemma keeps_present_fill (i i' : nat) (y : row → cell) (f : frame) :
  keeps_present i f (map_col i' (λ r, fill (cell_at i' r) (y r)) f).
Proof.
  intros r' (r & -> & Hr)%list_elem_of_fmap. exists r. split_and!; [done..|].
  intros Hna. destruct (decide (i' = i)) as [->|Hne].
  - unfold cell_at in *. simpl.
    destruct (cells r !! i) as [x|] eqn:Hx; simpl in *; [|done].
    rewrite list_lookup_insert_eq by (by eapply lookup_lt_Some).
    simpl. by destruct x.
  - by apply cell_at_upd_ne.
Qed.

Lemma keeps_present_cleaned (i : nat) (df out : frame) :
  cleaned df = Ok out → keeps_present i (parsed df) out.
Proof.
  intros (f5 & f6 & f8 & H5 & H6 & _ & H8 & _ & ->)%cleaned_stages.
  assert (keeps_present i (parsed df) f5) as K5.
  { unfold with_pd_dt in H5.
    apply impute_pd_dt_spec in H5 as [(ic & ip & _ & _ & ->)|[_ ->]].
    - apply keeps_present_fill.
    - apply keeps_present_refl. }
  assert (keeps_present i f5 f6) as K6.
  { apply impute_clm_adjud_ts_spec in H6 as [(ip & ia & _ & _ & ->)|[_ ->]].
    - apply keeps_present_fill.
    - apply keeps_present_refl. }
  assert (keeps_present i f6 (impute_categorical f6)) as K7.
  { rewrite impute_categorical_spec. destruct (get_loc _ (columns f6)).
    - apply keeps_present_fill.
    - apply keeps_present_refl. }
  assert (keeps_present i (impute_categorical f6) (drop_duplicates f8)) as K9.
  { apply keeps_present_keeps.
    eapply keeps_trans; [by apply keeps_remove_outliers|].
    apply keeps_drop_duplicates. }
  apply (keeps_present_trans i _ f5); [done|].
  apply (keeps_present_trans i _ f6); [done|].
  by apply (keeps_present_trans i _ (impute_categorical f6)).
Qed.

(** X5: Rules 5 and 6 fill gaps only: a date that is present once the dates
    are parsed is the date of the output row with the same label. *)
Theorem present_dates_kept (df out : frame) (c : string) (r4 r : row) :
  wf_frame df →
  outcome (cleaning df) = Ok out →
  c ∈ date_columns → c ∈ columns out →
  r4 ∈ rows (parsed df) → r ∈ rows out → label r = label r4 →
  cell_of c (parsed df) r4 ≠ NA →
  cell_of c out r = cell_of c (parsed df) r4.
Proof.
  rewrite cleaning_outcome. intros Hwf Hout _ Hin Hr4 Hr Hlab Hna.
  pose proof (columns_cleaned_eq _ _ Hout) as Hcols.
  rewrite Hcols in Hin. apply get_loc_is_Some in Hin as [i Hi].
  rewrite (cell_of_loc c (parsed df) i) in * by done.
  rewrite (cell_of_loc c out i) by (by rewrite Hcols).
  destruct (keeps_present_cleaned i _ _ Hout r Hr) as (r4' & Hr4' & Hl & Hcell).
  assert (r4' = r4) as ->
    by (apply (row_by_label (parsed df)); [by apply wf_parsed|done..|congruence]).
  by apply Hcell.
Qed.

Lemma ts_cell_fill (a b : cell) : ts_cell a → ts_cell b → ts_cell (fill a b).
Proof. intros Ha Hb. by destruct a. Qed.

Lemma add_delta_bounds (d : Z) (s s' : Series) (c : cell) :
  add_delta d s = Ok s' → c ∈ s → ts_cell (shift d c).
Proof.
  unfold add_delta. revert s'.
  induction s as [|c0 s IH]; intros s' Hs Hc; [by apply elem_of_nil in Hc|].
  simpl in Hs.
  destruct (add_delta_cell d c0) as [c1|e] eqn:H0; simpl in Hs; [|done].
  destruct (mapM (add_delta_cell d) s) as [k|e] eqn:Hk; simpl in Hs; [|done].
  apply elem_of_cons in Hc as [->|Hc]; [|by eapply IH].
  destruct c0 as [|n|x|x|t]; simpl in H0; try done; [by left|].
  unfold shift. destruct (in_bounds (t + d)) eqn:Hb.
  - rewrite (in_bounds_not_NaT _ Hb). right. eauto.
  - destruct (is_NaT (t + d)); [by left|done].
Qed.

Lemma shifted_in_range (target source : string) (d : Z) (f f' : frame)
    (i : nat) (r : row) :
  get_loc source (columns f) = Some i →
  (shifted ← add_delta d (getitem source f);
   mret (setitem target (fillna (getitem target f) shifted) f)) = Ok f' →
  r ∈ rows f → ts_cell (shift d (cell_at i r)).
Proof.
  intros Hi. rewrite (getitem_loc _ _ _ Hi).
  destruct (add_delta d (cell_at i <$> rows f)) as [k|e] eqn:Hk; simpl; [|done].
  intros _ Hr. eapply add_delta_bounds; [exact Hk|].
  apply list_elem_of_fmap. by exists r.
Qed.

Lemma col_ts_map_col_ne (i i' : nat) (g : row → cell) (f : frame) :
  i' ≠ i → col_ts i f → col_ts i (map_col i' g f).
Proof.
  intros Hne Hf r' (r & -> & Hr)%list_elem_of_fmap.
  rewrite cell_at_upd_ne by done. by apply Hf.
Qed.

Lemma col_ts_map_col_eq (i : nat) (g : row → cell) (f : frame) :
  (∀ r, r ∈ rows f → ts_cell (g r)) → col_ts i (map_col i g f).
Proof.
  intros Hg r' (r & -> & Hr)%list_elem_of_fmap.
  destruct (decide (i < length (cells r))%nat) as [Hlt|Hge].
  - rewrite cell_at_upd_eq by done. by apply Hg.
  - unfold cell_at, upd. simpl. rewrite list_insert_ge by lia.
    rewrite lookup_ge_None_2 by lia. by left.
Qed.

Lemma col_ts_sub_rows (i : nat) (f f' : frame) :
  rows f' `sublist_of` rows f → col_ts i f → col_ts i f'.
Proof. intros Hs Hf r Hr. apply Hf. by eapply elem_of_sublist. Qed.

(** X6: In the output a date column holds nothing but missing cells and
    timestamps: no text and no number of the input is left there. *)
Theorem dates_are_timestamps (df out : frame) (c : string) (r : row) :
  wf_frame df →
  outcome (cleaning df) = Ok out →
  c ∈ date_columns → c ∈ columns out → r ∈ rows out →
  cell_of c out r = NA ∨ ∃ t, cell_of c out r = Ts t.
Proof.
  rewrite cleaning_outcome. intros Hwf Hout Hc Hin Hr.
  pose proof (columns_cleaned_eq _ _ Hout) as Hcols.
  rewrite Hcols in Hin. apply get_loc_is_Some in Hin as [i Hi].
  rewrite (cell_of_loc c out i) by (by rewrite Hcols).
  assert (col_ts i out) as Hts.
  { destruct (cleaned_stages _ _ Hout) as (f5 & f6 & f8 & H5 & H6 & _ & H8 & _ & ->).
    assert (∀ c', c' ∈ date_columns → ∀ j,
              get_loc c' (columns (parsed df)) = Some j → col_ts j (parsed df)) as H4.
    { intros c' Hc' j Hj. by apply (col_ts_parsed df c'). }
    unfold with_pd_dt in H5. set (f4 := parsed df) in *.
    assert (col_ts i f5 ∧ columns f5 = columns f4 ∧
            ∀ j, get_loc "pd_dt" (columns f4) = Some j → col_ts j f5) as (H5i & Hc5 & H5p).
    { pose proof H5 as H5'. unfold impute_pd_dt in H5'.
      apply impute_pd_dt_spec in H5 as [(ic & ip & Hic & Hip & ->)|[_ ->]].
      - assert (col_ts ip (map_col ip
                  (λ r, fill (cell_at ip r) (shift (Timedelta_days 2) (cell_at ic r)))
                  f4)) as Hp.
        { apply col_ts_map_col_eq. intros r0 Hr0. apply ts_cell_fill.
          - apply (H4 "pd_dt"); [unfold date_columns; in_list|done..].
          - rewrite (proj2 (has_column_true _ _)), (proj2 (has_column_true _ _))
              in H5' by (apply get_loc_is_Some; eauto). cbn [andb] in H5'.
            by eapply (shifted_in_range "pd_dt" "clm_sys_cret_dt"). }
        split_and!; [|done|].
        + destruct (decide (ip = i)) as [->|Hne]; [done|].
          apply col_ts_map_col_ne; [done|]. by apply (H4 c).
        + intros j Hj. by assert (j = ip) as -> by congruence.
      - split_and!; [by apply (H4 c)|done|].
        intros j Hj. apply (H4 "pd_dt"); [unfold date_columns; in_list|done]. }
    assert (col_ts i f6 ∧ columns f6 = columns f4) as (H6i & Hc6).
    { pose proof H6 as H6'. unfold impute_clm_adjud_ts in H6'.
      apply impute_clm_adjud_ts_spec in H6 as [(ip & ia & Hip & Hia & ->)|[_ ->]];
        [|done].
      split; [|done].
      destruct (decide (ia = i)) as [->|Hne].
      - apply col_ts_map_col_eq. intros r0 Hr0. apply ts_cell_fill; [by apply H5i|].
        rewrite (proj2 (has_column_true _ _)), (proj2 (has_column_true _ _))
          in H6' by (apply get_loc_is_Some; eauto). cbn [andb] in H6'.
        by eapply (shifted_in_range "clm_adjud_ts" "pd_dt").
      - by apply col_ts_map_col_ne. }
    assert (col_ts i (impute_categorical f6)) as H7i.
    { rewrite impute_categorical_spec.
      destruct (get_loc _ (columns f6)) as [j|] eqn:Hj; [|done].
      apply col_ts_map_col_ne; [|done]. intros ->.
      rewrite Hc6 in Hj. apply get_loc_lookup in Hi, Hj.
      assert (c = "procsr_apprv_pay_by_nm") as -> by congruence.
      not_in_list Hc. }
    eapply col_ts_sub_rows; [apply rows_drop_duplicates_sublist|].
    eapply col_ts_sub_rows; [|exact H7i].
    by destruct (remove_outliers_sub _ _ H8). }
  destruct (Hts r Hr) as [Hna|(t & Ht & Hb)]; [by left|].
  right. by exists t.
Qed.

(** ** A text among the amounts *)

(** X11: A text value among the amounts makes rule 8 raise [TypeError]: the
    rules return no frame. *)
Theorem text_amount_raises (df f7 : frame) (r : row) (s : string) :
  imputed df = Ok f7 →
  "totl_billd_amt" ∈ columns f7 →
  r ∈ rows f7 →
  cell_of "totl_billd_amt" f7 r = Str s →
  outcome (cleaning df) = Raise TypeError.
Proof.
  rewrite cleaning_outcome. intros H7 Hcol Hr Hs.
  unfold cleaned, trimmed. rewrite H7. simpl.
  unfold remove_outliers. rewrite (proj2 (has_column_true _ _) Hcol).
  apply get_loc_is_Some in Hcol as [i Hi].
  rewrite (cell_of_loc _ _ _ _ Hi) in Hs.
  assert (Str s ∈ getitem "totl_billd_amt" f7) as Hin.
  { rewrite (getitem_loc _ _ _ Hi). apply list_elem_of_fmap. by exists r. }
  unfold quantile. by rewrite (int_values_text _ s), (numeric_values_text _ s).
Qed.

(** ** Rule 9 once more, and the empty table *)

Lemma dedup_fixed (seen l : list row) :
  (∀ i j ri rj, (i < j)%nat → l !! i = Some ri → l !! j = Some rj →
                cells_eqb (cells ri) (cells rj) = false) →
  (∀ s r, s ∈ seen → r ∈ l → cells_eqb (cells s) (cells r) = false) →
  select (negb <$> duplicated_from seen l) l = l.
Proof.
  revert seen. induction l as [|r0 l IH]; intros seen Hdist Hseen; [done|].
  simpl.
  assert (existsb (λ r', cells_eqb (cells r') (cells r0)) seen = false) as ->.
  { apply existsb_false. intros s Hs. apply Hseen; [done|apply list_elem_of_here]. }
  simpl. f_equal. apply IH.
  - intros i j ri rj Hij Hi Hj. apply (Hdist (S i) (S j)); [lia|done..].
  - intros s r [Hs|Hs]%elem_of_app Hr.
    + apply Hseen; [done|by apply list_elem_of_further].
    + apply list_elem_of_singleton in Hs as ->.
      apply list_elem_of_lookup in Hr as [j Hj].
      apply (Hdist 0%nat (S j)); [lia|done..].
Qed.

(** X12: Dropping duplicates twice is dropping them once. *)
Theorem drop_duplicates_idempotent (f : frame) :
  drop_duplicates (drop_duplicates f) = drop_duplicates f.
Proof.
  destruct (empty f) eqn:He.
  - unfold drop_duplicates at 2. rewrite He. unfold drop_duplicates. by rewrite He.
  - set (g := drop_duplicates f).
    assert (columns f ≠ []) as Hc.
    { unfold empty in He. by destruct (columns f). }
    assert (rows g = select (negb <$> duplicated_from [] (rows f)) (rows f)) as Hg
      by (by apply rows_drop_duplicates).
    assert (columns g = columns f) as Hcg by apply columns_drop_duplicates.
    unfold drop_duplicates at 1. destruct (empty g); [done|].
    destruct g as [gc gr] eqn:Eg. simpl in *. subst gc. f_equal.
    unfold duplicated. simpl. rewrite Hg. apply dedup_fixed.
    + intros i j ri rj Hij Hi Hj. by eapply dedup_distinct.
    + intros s r Hs. by apply elem_of_nil in Hs.
Qed.

Lemma filter_imap_none {A B : Type} (p : B → bool) (g : nat → A → B) (l : list A) :
  (∀ i x, p (g i x) = false) → List.filter p (imap g l) = [].
Proof.
  revert g. induction l as [|x l IH]; intros g Hg; simpl; [done|].
  rewrite Hg. apply IH. intros i y. apply Hg.
Qed.

Lemma cols_to_drop_no_rows (cols : list string) : cols_to_drop (Frame cols []) = [].
Proof.
  unfold cols_to_drop, missing_pct.
  by rewrite filter_imap_none.
Qed.

(** X13: A table without rows is cleaned without an error: the result has no
    rows and all the columns of the table but [authzn_id]; in particular
    no column counts as sparse. *)
Theorem empty_table_cleaned (cols : list string) :
  outcome (cleaning (toPandas (Table cols [])))
  = Ok (Frame (List.filter (λ c, negb (String.eqb c "authzn_id")) cols) []).
Proof.
  rewrite cleaning_outcome.
  unfold cleaned, trimmed, imputed, with_pd_dt. rewrite parsed_spec.
  change (toPandas (Table cols [])) with (Frame cols []).
  change (dropna_all (Frame cols [])) with (Frame cols []).
  rewrite cols_to_drop_no_rows.
  assert (drop_columns [] (Frame cols []) = Frame cols []) as ->.
  { apply drop_columns_absent; [by constructor|].
    intros c Hc. by apply elem_of_nil in Hc. }
  assert (drop_columns ["authzn_id"] (Frame cols [])
          = Frame (List.filter (λ c, negb (String.eqb c "authzn_id")) cols) [])
    as ->.
  { unfold drop_columns, keep_mask. cbn [columns rows fmap list_fmap]. f_equal.
    rewrite select_fmap_filter. apply filter_ext. intros c. f_equal.
    destruct (String.eqb_spec c "authzn_id") as [->|Hne].
    - apply bool_decide_eq_true_2, list_elem_of_here.
    - apply bool_decide_eq_false_2. by intros ->%list_elem_of_singleton. }
  set (cs := List.filter _ cols).
  assert (∀ c, coerce_column (Frame cs []) c = Frame cs []) as Hparse.
  { intros c. unfold coerce_column. by destruct (get_loc c _). }
  unfold coerce_dates, date_columns. cbn [foldl]. rewrite !Hparse.
  assert (impute_pd_dt (Frame cs []) = Ok (Frame cs [])) as ->.
  { unfold impute_pd_dt, has_column, getitem, setitem. cbn [columns rows].
    destruct (get_loc "clm_sys_cret_dt" cs), (get_loc "pd_dt" cs); done. }
  rewrite result_bind_Ok.
  assert (impute_clm_adjud_ts (Frame cs []) = Ok (Frame cs [])) as ->.
  { unfold impute_clm_adjud_ts, has_column, getitem, setitem. cbn [columns rows].
    destruct (get_loc "pd_dt" cs), (get_loc "clm_adjud_ts" cs); done. }
  rewrite result_bind_Ok.
  assert (impute_categorical (Frame cs []) = Frame cs []) as ->.
  { rewrite impute_categorical_spec. by destruct (get_loc _ _). }
  rewrite result_bind_Ok.
  assert (remove_outliers (Frame cs []) = Ok (Frame cs [])) as ->.
  { unfold remove_outliers, has_column, getitem. cbn [columns rows].
    destruct (get_loc "totl_billd_amt" cs); done. }
  cbn [fmap result_fmap]. f_equal.
  unfold drop_duplicates, empty. cbn [columns rows]. by destruct cs.
Qed.

(** ** Rules 2, 5 and 6 together with their neighbours *)

Lemma cols_to_drop_sparse (f : frame) (c : string) :
  c ∈ cols_to_drop f →
  ∃ i, columns f !! i = Some c ∧
       (40 * length (rows f) < 100 * count_na (iloc_col i f))%nat.
Proof.
  unfold cols_to_drop, missing_pct.
  intros ([c' p] & -> & Hin)%list_elem_of_fmap.
  apply list_elem_of_In, filter_In in Hin as [Hin%list_elem_of_In Hgt].
  apply list_elem_of_lookup in Hin as [i Hi].
  rewrite list_lookup_imap in Hi.
  destruct (columns f !! i) as [c''|] eqn:Hc; simpl in Hi; [|done].
  injection Hi as <- <-. simpl in Hgt. exists i. split; [done|].
  apply nan_gt_pct in Hgt. unfold iloc_col in Hgt at 1.
  by rewrite length_fmap in Hgt.
Qed.

(** X8: Rule 2 drops nothing else: a column other than [authzn_id] whose share
    of missing cells, over the rows rule 1 leaves, is at most 40 percent
    is a column of the output. *)
Theorem dense_column_kept (df out : frame) (i : nat) (c : string) :
  wf_frame df →
  outcome (cleaning df) = Ok out →
  columns df !! i = Some c →
  c ≠ "authzn_id" →
  (100 * count_na (iloc_col i (dropna_all df))
     ≤ 40 * length (rows (dropna_all df)))%nat →
  c ∈ columns out.
Proof.
  rewrite cleaning_outcome. intros [Hnd _ _] Hout Hi Hne Hpct.
  rewrite (columns_cleaned_eq _ _ Hout).
  destruct (narrows_parsed df) as (-> & _).
  rewrite !elem_of_columns_drop, list_elem_of_singleton.
  split_and!; [by eapply list_elem_of_lookup_2| |done].
  intros (j & Hj & Hgt)%cols_to_drop_sparse. simpl in Hj.
  assert (j = i) as -> by (by eapply NoDup_lookup).
  lia.
Qed.

(** X7: Rules 5 and 6 in a row: where both [pd_dt] and [clm_adjud_ts] are
    missing once the dates are parsed and [clm_sys_cret_dt] is present,
    the output has [pd_dt = clm_sys_cret_dt + 2 days] and
    [clm_adjud_ts = clm_sys_cret_dt]. *)
Theorem both_dates_imputed (df out : frame) (r4 r : row) (t : Z) :
  wf_frame df →
  outcome (cleaning df) = Ok out →
  "pd_dt" ∈ columns out →
  "clm_adjud_ts" ∈ columns out →
  "clm_sys_cret_dt" ∈ columns out →
  r4 ∈ rows (parsed df) → r ∈ rows out → label r = label r4 →
  cell_of "pd_dt" (parsed df) r4 = NA →
  cell_of "clm_adjud_ts" (parsed df) r4 = NA →
  cell_of "clm_sys_cret_dt" (parsed df) r4 = Ts t →
  cell_of "pd_dt" out r = Ts (t + Timedelta_days 2) ∧
  cell_of "clm_adjud_ts" out r = Ts t.
Proof.
  rewrite cleaning_outcome.
  intros Hwf Hout Hp Ha Hc Hr4 Hr Hlab Hnp Hna Hts.
  pose proof (columns_cleaned_eq _ _ Hout) as Hcols.
  pose proof (wf_parsed df Hwf) as Hwf4.
  rewrite Hcols in Hp, Ha, Hc.
  destruct (cleaned_stages _ _ Hout) as (f5 & f6 & f8 & H5 & H6 & _ & H8 & _ & ->).
  unfold with_pd_dt in H5. set (f4 := parsed df) in *.
  pose proof (wf_with_pd_dt df f5 Hwf H5) as Hwf5.
  apply impute_pd_dt_spec in H5 as [(ic & ip & Hic & Hip & ->)|[Hno _]].
  2:{ apply has_column_true in Hp, Hc. by rewrite Hp, Hc in Hno. }
  set (g5 := λ r, fill (cell_at ip r) (shift (Timedelta_days 2) (cell_at ic r))) in *.
  apply impute_clm_adjud_ts_spec in H6 as [(ip' & ia & Hip' & Hia & ->)|[Hno _]].
  2:{ assert (has_column "pd_dt" (map_col ip g5 f4) = true) as Hp'
        by (by apply has_column_true).
      assert (has_column "clm_adjud_ts" (map_col ip g5 f4) = true) as Ha'
        by (by apply has_column_true).
      by rewrite Hp', Ha' in Hno. }
  change (columns (map_col ip g5 f4)) with (columns f4) in Hip', Hia.
  assert (ip' = ip) as -> by congruence.
  set (g6 := λ r, fill (cell_at ia r) (shift (- Timedelta_days 2) (cell_at ip r))) in *.
  rewrite (cell_of_loc _ _ _ _ Hip) in Hnp.
  rewrite (cell_of_loc _ _ _ _ Hia) in Hna.
  rewrite (cell_of_loc _ _ _ _ Hic) in Hts.
  rewrite (cell_of_loc "pd_dt" _ ip) by (by rewrite Hcols).
  rewrite (cell_of_loc "clm_adjud_ts" _ ia) by (by rewrite Hcols).
  assert (ia ≠ ip) as Hne by (by eapply (get_loc_ne "clm_adjud_ts" "pd_dt")).
  assert (ip ≠ ic) as Hne' by (by eapply (get_loc_ne "pd_dt" "clm_sys_cret_dt")).
  assert (keeps (λ j, j = ia ∨ j = ip) (map_col ia g6 (map_col ip g5 f4))
                (drop_duplicates f8)) as [_ Hkeep].
  { eapply keeps_trans.
    { apply keeps_impute_categorical. simpl. intros i Hi [->| ->].
      - by eapply (get_loc_ne "procsr_apprv_pay_by_nm" "clm_adjud_ts").
      - by eapply (get_loc_ne "procsr_apprv_pay_by_nm" "pd_dt"). }
    eapply keeps_trans; [by apply keeps_remove_outliers|].
    apply keeps_drop_duplicates. }
  destruct (Hkeep r Hr) as (r6 & Hr6 & Hl6 & Hcell).
  rewrite (Hcell ia), (Hcell ip) by auto.
  cbn [rows map_col] in Hr6. apply list_elem_of_fmap in Hr6 as (r5 & -> & Hr5).
  apply list_elem_of_fmap in Hr5 as (r4' & -> & Hr4').
  rewrite !label_upd in Hl6.
  assert (r4' = r4) as -> by (apply (row_by_label f4); [done..|congruence]).
  assert (ip < length (cells r4))%nat as Hwp
    by (by apply (cell_at_width f4 "pd_dt")).
  assert (ia < length (cells r4))%nat as Hwa
    by (by apply (cell_at_width f4 "clm_adjud_ts")).
  rewrite cell_at_upd_eq by (by rewrite length_cells_upd).
  rewrite cell_at_upd_ne by done.
  rewrite cell_at_upd_eq by done.
  unfold g6. rewrite cell_at_upd_ne by done. rewrite cell_at_upd_eq by done.
  unfold g5. rewrite Hnp, Hna, Hts. cbn [fill isna].
  assert (in_bounds t = true) as Hb.
  { assert (ts_cell (cell_at ic r4)) as [Hn|(t' & Ht' & Hb)]; [|congruence|].
    - apply (col_ts_parsed df "clm_sys_cret_dt" ic Hwf); [|done..].
      unfold date_columns. in_list.
    - by assert (t' = t) as -> by congruence. }
  rewrite (shift_forward _ _ Hb Timedelta_days_2). cbn [fill isna].
  split; [done|]. unfold shift.
  replace (t + Timedelta_days 2 + - Timedelta_days 2)%Z with t by lia.
  by rewrite (in_bounds_not_NaT _ Hb).
Qed.

(** ** The connector, the loader and the writer *)

Lemma truthy_Some (v : option string) :
  truthy v = true ↔ ∃ x, v = Some x ∧ x ≠ "".
Proof.
  destruct v as [x|]; simpl.
  - rewrite negb_true_iff, String.eqb_neq. split; [eauto|].
    by intros (y & [= <-] & Hy).
  - split; [done|]. by intros (y & [=] & _).
Qed.

(** X14: [get_spark] returns a session only when the four variables are set
    and not empty; the session then carries their values, and the only
    effect is the one call that creates it. *)
Theorem get_spark_session (env : gmap string string) (tr : list event) (s : session) :
  get_spark env = (tr, Ok s) →
  tr = [GetOrCreate s] ∧
  (env !! "DATABRICKS_HOST" = Some (host s) ∧ host s ≠ "") ∧
  (env !! "DATABRICKS_TOKEN" = Some (token s) ∧ token s ≠ "") ∧
  (env !! "DATABRICKS_CLUSTER_ID" = Some (cluster_id s) ∧ cluster_id s ≠ "") ∧
  (env !! "DATABRICKS_HTTP_PATH" = Some (http_path s) ∧ http_path s ≠ "").
Proof.
  unfold get_spark.
  generalize (env !! "DATABRICKS_HOST"), (env !! "DATABRICKS_TOKEN"),
    (env !! "DATABRICKS_CLUSTER_ID"), (env !! "DATABRICKS_HTTP_PATH").
  intros h t c p.
  destruct (forallb truthy [h; t; c; p]) eqn:Hall; cbn [negb]; [|done].
  intros [= <- <-]. cbn [forallb] in Hall.
  rewrite !andb_true_iff in Hall. destruct Hall as (Hh & Ht & Hc & Hp & _).
  apply truthy_Some in Hh as (h' & -> & Hhne), Ht as (t' & -> & Htne),
    Hc as (c' & -> & Hcne), Hp as (p' & -> & Hpne).
  by split_and!.
Qed.

(** *** Running a computation step by step *)

Lemma trace_bind {A B : Type} (m : io A) (k : A → io B) :
  trace (m ≫= k) =
  trace m ++ match outcome m with Ok a => trace (k a) | Raise _ => [] end.
Proof.
  destruct m as [t [a|e]]; unfold trace, outcome; cbn.
  - by destruct (k a).
  - by rewrite app_nil_r.
Qed.

Lemma trace_emit (e : event) : trace (emit e) = [e].
Proof. done. Qed.

Lemma outcome_emit (e : event) : outcome (emit e) = Ok tt.
Proof. done. Qed.

Lemma trace_print (m : message) : trace (print m) = [Print m].
Proof. done. Qed.

Lemma trace_call (e : event) : trace (call e) = [e].
Proof. unfold call. rewrite trace_bind. simpl. by destruct (fault e). Qed.

Lemma outcome_call (e : event) :
  outcome (call e) = match fault e with Some x => Raise x | None => Ok tt end.
Proof. unfold call. rewrite outcome_bind. simpl. by destruct (fault e). Qed.

Lemma trace_read_table (w : world) (name : string) :
  trace (read_table w name) = [ReadTable name].
Proof.
  unfold read_table. rewrite trace_bind, trace_call, outcome_call.
  by destruct (fault (ReadTable name)).
Qed.

Lemma outcome_read_table (w : world) (name : string) :
  outcome (read_table w name) =
  match fault (ReadTable name) with
  | Some x => Raise x
  | None => Ok (catalog w !! name)
  end.
Proof.
  unfold read_table. rewrite outcome_bind, outcome_call.
  by destruct (fault (ReadTable name)).
Qed.

Lemma trace_action (e : event) (name : string) (h : option table) :
  trace (action e name h) = [e].
Proof.
  unfold action. rewrite trace_bind, trace_call, outcome_call.
  destruct (fault e); [done|]. by destruct h.
Qed.

Lemma outcome_action (e : event) (name : string) (h : option table) :
  outcome (action e name h) =
  match fault e with
  | Some x => Raise x
  | None =>
      match h with
      | Some t => Ok t
      | None => Raise (AnalysisException name)
      end
  end.
Proof.
  unfold action. rewrite outcome_bind, outcome_call.
  destruct (fault e); [done|]. by destruct h.
Qed.

Ltac run_io :=
  repeat (first [ rewrite trace_bind | rewrite outcome_bind
                | rewrite outcome_print | rewrite trace_print
                | rewrite outcome_emit | rewrite trace_emit
                | rewrite outcome_call | rewrite trace_call
                | rewrite trace_read_table | rewrite trace_action
                | rewrite outcome_read_table | rewrite outcome_action
                | rewrite result_bind_Ok ];
          cbv beta iota zeta).

Ltac run_with tac := repeat (progress (run_io; tac)).

Lemma engine_calls_app (a b : list event) :
  engine_calls (a ++ b) = engine_calls a ++ engine_calls b.
Proof. apply List.filter_app. Qed.

Lemma calls_bind {A B : Type} (m : io A) (k : A → io B) :
  engine_calls (trace m) = [] →
  (∀ a, engine_calls (trace (k a)) = []) →
  engine_calls (trace (m ≫= k)) = [].
Proof.
  intros Hm Hk. rewrite trace_bind, engine_calls_app, Hm.
  destruct (outcome m) as [a|e]; [apply Hk|done].
Qed.

Lemma calls_if {A : Type} (b : bool) (m1 m2 : io A) :
  engine_calls (trace m1) = [] → engine_calls (trace m2) = [] →
  engine_calls (trace (if b then m1 else m2)) = [].
Proof. by destruct b. Qed.

Lemma calls_print (m : message) : engine_calls (trace (print m)) = [].
Proof. done. Qed.

Lemma calls_lift {A : Type} (r : result A) : engine_calls (trace (lift r)) = [].
Proof. done. Qed.

Lemma calls_ret {A : Type} (x : A) : engine_calls (trace (mret x : io A)) = [].
Proof. done. Qed.

(** The rules print, and call the engine never. *)
Lemma engine_calls_cleaning (df : frame) : engine_calls (trace (cleaning df)) = [].
Proof.
  unfold cleaning. cbv zeta.
  repeat first [ apply calls_print | apply calls_lift | apply calls_ret
               | apply calls_if | apply calls_bind; [|intros ?] ].
Qed.

Lemma get_spark_set (w : world) :
  (∀ k, k ∈ required_vars → ∃ v, environ w !! k = Some v ∧ v ≠ "") →
  ∃ s, get_spark (environ w) = ([GetOrCreate s], Ok s).
Proof.
  intros Hall. apply get_spark_truthy. intros k Hk.
  apply truthy_Some. destruct (Hall k Hk) as (v & Hv & Hne). eauto.
Qed.

(** The script prints the error [main] ends with, last, and raises it
    again. *)
Lemma script_raises (w : world) (e : exn) :
  outcome (main w) = Raise e →
  script w = (trace (main w) ++ [PrintErr e], Raise e).
Proof.
  intros Hm. unfold script. unfold outcome, trace in *.
  destruct (main w) as [tr res]. simpl in *. by subst res.
Qed.

(** X15: When the four variables are set, the source table exists, the
    engine answers every call and the rules return a frame, [main] ends
    normally, and its calls to the engine are, in this order: create the
    session, read the source table, count its rows, fetch it, hand the
    cleaned frame over, save it as the cleaned table, save the same frame
    as the feature table, stop the session. *)
Theorem main_writes_cleaned (w : world) (t : table) (out : frame) :
  (∀ k, k ∈ required_vars → ∃ v, environ w !! k = Some v ∧ v ≠ "") →
  catalog w !! qualified (environ w) ".fct_claim" = Some t →
  (∀ e, fault e = None) →
  outcome (cleaning (toPandas t)) = Ok out →
  outcome (main w) = Ok tt ∧
  ∃ s, engine_calls (trace (main w)) =
       [GetOrCreate s;
        ReadTable (qualified (environ w) ".fct_claim");
        Count (qualified (environ w) ".fct_claim");
        ToPandas (qualified (environ w) ".fct_claim");
        CreateDataFrame out;
        SaveAsTable (qualified (environ w) ".cleaned_claims") out;
        SaveAsTable (qualified (environ w) ".fct_claim_features_after_datacleanup")
                    out;
        SparkStop].
Proof.
  intros Henv Ht Hf Hout. destruct (get_spark_set w Henv) as [s Hs].
  assert (outcome (get_spark (environ w)) = Ok s) as Hso by (by rewrite Hs).
  assert (trace (get_spark (environ w)) = [GetOrCreate s]) as Hst by (by rewrite Hs).
  unfold qualified in *. unfold main. cbv zeta.
  split.
  - by run_with ltac:(rewrite ?Hso, ?Hf, ?Ht, ?Hout).
  - exists s. run_with ltac:(rewrite ?Hso, ?Hst, ?Hf, ?Ht, ?Hout).
    rewrite !engine_calls_app, engine_calls_cleaning. done.
Qed.

(** X16: When the engine has answered the read, the count and the fetch
    and a rule raises, [main] ends with that error: the frame is not
    handed over, no table is saved and the session is not stopped; the
    script prints the error last and raises it again. *)
Theorem cleaning_error_propagates (w : world) (t : table) (e : exn) :
  (∀ k, k ∈ required_vars → ∃ v, environ w !! k = Some v ∧ v ≠ "") →
  catalog w !! qualified (environ w) ".fct_claim" = Some t →
  fault (ReadTable (qualified (environ w) ".fct_claim")) = None →
  fault (Count (qualified (environ w) ".fct_claim")) = None →
  fault (ToPandas (qualified (environ w) ".fct_claim")) = None →
  outcome (cleaning (toPandas t)) = Raise e →
  outcome (main w) = Raise e ∧
  (∃ s, engine_calls (trace (main w)) =
        [GetOrCreate s;
         ReadTable (qualified (environ w) ".fct_claim");
         Count (qualified (environ w) ".fct_claim");
         ToPandas (qualified (environ w) ".fct_claim")]) ∧
  script w = (trace (main w) ++ [PrintErr e], Raise e).
Proof.
  intros Henv Ht Hfr Hfc Hfp Hout. destruct (get_spark_set w Henv) as [s Hs].
  assert (outcome (get_spark (environ w)) = Ok s) as Hso by (by rewrite Hs).
  assert (trace (get_spark (environ w)) = [GetOrCreate s]) as Hst by (by rewrite Hs).
  assert (outcome (main w) = Raise e) as Hm.
  { unfold qualified in *. unfold main. cbv zeta.
    by run_with ltac:(rewrite ?Hso, ?Hfr, ?Hfc, ?Hfp, ?Ht, ?Hout). }
  split_and!; [done| |by apply script_raises].
  exists s. unfold qualified in *. unfold main. cbv zeta.
  run_with ltac:(rewrite ?Hso, ?Hst, ?Hfr, ?Hfc, ?Hfp, ?Ht, ?Hout).
  rewrite !engine_calls_app, engine_calls_cleaning. done.
Qed.

(** X17: When the engine holds no source table, [main] ends with an
    error, whether the engine reports the table at the read or at the
    count: the table is not fetched, no frame is handed over, no table is
    saved and the session is not stopped; the script prints the error
    last and raises it again. *)
Theorem missing_table_raises (w : world) :
  (∀ k, k ∈ required_vars → ∃ v, environ w !! k = Some v ∧ v ≠ "") →
  catalog w !! qualified (environ w) ".fct_claim" = None →
  ∃ e s,
    outcome (main w) = Raise e ∧
    (engine_calls (trace (main w)) =
       [GetOrCreate s; ReadTable (qualified (environ w) ".fct_claim")] ∨
     engine_calls (trace (main w)) =
       [GetOrCreate s; ReadTable (qualified (environ w) ".fct_claim");
        Count (qualified (environ w) ".fct_claim")]) ∧
    script w = (trace (main w) ++ [PrintErr e], Raise e).
Proof.
  intros Henv Ht. destruct (get_spark_set w Henv) as [s Hs].
  assert (outcome (get_spark (environ w)) = Ok s) as Hso by (by rewrite Hs).
  assert (trace (get_spark (environ w)) = [GetOrCreate s]) as Hst by (by rewrite Hs).
  unfold qualified in *.
  destruct (fault (ReadTable
              (default "workspace" (environ w !! "DATABRICKS_CATALOG") +:+ "." +:+
               default "feature_store_project" (environ w !! "DATABRICKS_SCHEMA")
               +:+ ".fct_claim"))) as [e|] eqn:Hfr.
  - assert (outcome (main w) = Raise e) as Hm.
    { unfold main. cbv zeta. run_io. rewrite Hso. run_io. by rewrite Hfr. }
    exists e, s. split_and!; [done| |by apply script_raises].
    left. unfold main. cbv zeta. run_io. rewrite Hso, Hst. run_io. by rewrite Hfr.
  - destruct (fault (Count
                (default "workspace" (environ w !! "DATABRICKS_CATALOG") +:+ "." +:+
                 default "feature_store_project" (environ w !! "DATABRICKS_SCHEMA")
                 +:+ ".fct_claim"))) as [e|] eqn:Hfc.
    + assert (outcome (main w) = Raise e) as Hm.
      { unfold main. cbv zeta. run_io. rewrite Hso. run_io. rewrite Hfr. run_io.
        by rewrite Hfc. }
      exists e, s. split_and!; [done| |by apply script_raises].
      right. unfold main. cbv zeta. run_io. rewrite Hso, Hst. run_io.
      rewrite Hfr. run_io. by rewrite Hfc.
    + set (e := AnalysisException
                  (default "workspace" (environ w !! "DATABRICKS_CATALOG") +:+ "." +:+
                   default "feature_store_project" (environ w !! "DATABRICKS_SCHEMA")
                   +:+ ".fct_claim")).
      assert (outcome (main w) = Raise e) as Hm.
      { unfold main. cbv zeta. run_io. rewrite Hso. run_io. rewrite Hfr. run_io.
        by rewrite Hfc, Ht. }
      exists e, s. split_and!; [done| |by apply script_raises].
      right. unfold main. cbv zeta. run_io. rewrite Hso, Hst. run_io.
      rewrite Hfr. run_io. by rewrite Hfc, Ht.
Qed.

(** X18: When the engine fails the second save, the first one has gone
    through: [main] ends with the error of the engine after it has saved
    the cleaned table, the feature table is not written, and the session
    is not stopped. *)
Theorem second_save_fails (w : world) (t : table) (out : frame) (e : exn) :
  (∀ k, k ∈ required_vars → ∃ v, environ w !! k = Some v ∧ v ≠ "") →
  catalog w !! qualified (environ w) ".fct_claim" = Some t →
  outcome (cleaning (toPandas t)) = Ok out →
  fault (ReadTable (qualified (environ w) ".fct_claim")) = None →
  fault (Count (qualified (environ w) ".fct_claim")) = None →
  fault (ToPandas (qualified (environ w) ".fct_claim")) = None →
  fault (CreateDataFrame out) = None →
  fault (SaveAsTable (qualified (environ w) ".cleaned_claims") out) = None →
  fault (SaveAsTable (qualified (environ w)
                        ".fct_claim_features_after_datacleanup") out) = Some e →
  outcome (main w) = Raise e ∧
  (∃ s, engine_calls (trace (main w)) =
       [GetOrCreate s;
        ReadTable (qualified (environ w) ".fct_claim");
        Count (qualified (environ w) ".fct_claim");
        ToPandas (qualified (environ w) ".fct_claim");
        CreateDataFrame out;
        SaveAsTable (qualified (environ w) ".cleaned_claims") out;
        SaveAsTable (qualified (environ w) ".fct_claim_features_after_datacleanup")
                    out]) ∧
  script w = (trace (main w) ++ [PrintErr e], Raise e).
Proof.
  intros Henv Ht Hout Hfr Hfn Hfp Hfd Hfc Hfe.
  destruct (get_spark_set w Henv) as [s Hs].
  assert (outcome (get_spark (environ w)) = Ok s) as Hso by (by rewrite Hs).
  assert (trace (get_spark (environ w)) = [GetOrCreate s]) as Hst by (by rewrite Hs).
  assert (outcome (main w) = Raise e) as Hm.
  { unfold qualified in *. unfold main. cbv zeta.
    by run_with ltac:(rewrite ?Hso, ?Hfr, ?Hfn, ?Hfp, ?Hfd, ?Hfc, ?Hfe, ?Ht, ?Hout). }
  split_and!; [done| |by apply script_raises].
  exists s. unfold qualified in *. unfold main. cbv zeta.
  run_with ltac:(rewrite ?Hso, ?Hst, ?Hfr, ?Hfn, ?Hfp, ?Hfd, ?Hfc, ?Hfe, ?Ht, ?Hout).
  rewrite !engine_calls_app, engine_calls_cleaning. done.
Qed.

End MoreFacts.

(** ** Examples for the further properties *)

Lemma wf_tableb_true (t : table) : wf_tableb t = true → wf_table t.
Proof.
  unfold wf_tableb. rewrite andb_true_iff, forallb_forall, bool_decide_eq_true.
  intros [Hc Hw]. split; [done|].
  apply Forall_forall. intros cs Hcs%list_elem_of_In.
  specialize (Hw cs Hcs). by apply bool_decide_eq_true in Hw.
Qed.

Lemma full_environ_set (k : string) :
  k ∈ required_vars → ∃ v, full_environ !! k = Some v ∧ v ≠ "".
Proof.
  unfold required_vars. intros Hk.
  repeat (apply elem_of_cons in Hk as [->|Hk];
          [eexists; split; [vm_compute; reflexivity|discriminate]|]).
  by apply elem_of_nil in Hk.
Defined.

Lemma other_columns_untouched_witness :
  ∃ r0, r0 ∈ rows (toPandas billed_claims) ∧ label r0 = 1%nat ∧
        cell_of "clm_id" billed_claims_cleaned (Row 1 [Num 2; Num 110])
          = cell_of "clm_id" (toPandas billed_claims) r0.
Proof.
  apply (other_columns_untouched (P := sample_parser) (toPandas billed_claims)
           billed_claims_cleaned "clm_id" (Row 1 [Num 2; Num 110])).
  - apply wf_frameb_true. vm_compute. reflexivity.
  - vm_compute. reflexivity.
  - unfold rewritten_columns. intros H. not_in_list H.
  - simpl. in_list.
  - simpl. in_list.
Defined.

Lemma categorical_filled_witness :
  cell_of "procsr_apprv_pay_by_nm" payer_claims_cleaned
          (Row 1 [Num 2; Str "unknown"]) ≠ NA ∧
  ∃ r0, r0 ∈ rows (toPandas payer_claims) ∧ label r0 = 1%nat ∧
    (cell_of "procsr_apprv_pay_by_nm" (toPandas payer_claims) r0 = NA →
     cell_of "procsr_apprv_pay_by_nm" payer_claims_cleaned
             (Row 1 [Num 2; Str "unknown"]) = Str "unknown") ∧
    (cell_of "procsr_apprv_pay_by_nm" (toPandas payer_claims) r0 ≠ NA →
     cell_of "procsr_apprv_pay_by_nm" payer_claims_cleaned
             (Row 1 [Num 2; Str "unknown"])
       = cell_of "procsr_apprv_pay_by_nm" (toPandas payer_claims) r0).
Proof.
  apply (categorical_filled (P := sample_parser) (toPandas payer_claims)
           payer_claims_cleaned (Row 1 [Num 2; Str "unknown"])).
  - apply wf_frameb_true. vm_compute. reflexivity.
  - vm_compute. reflexivity.
  - simpl. in_list.
  - simpl. in_list.
Defined.

Lemma cleaning_only_removes_witness :
  columns sparse_plan_cleaned `sublist_of` columns (toPandas sparse_plan) ∧
  labels sparse_plan_cleaned `sublist_of` labels (toPandas sparse_plan) ∧
  (length (rows sparse_plan_cleaned) ≤ length (rows (toPandas sparse_plan)))%nat.
Proof.
  apply (cleaning_only_removes (P := sample_parser)).
  vm_compute. reflexivity.
Defined.

Lemma cleaned_well_formed_witness : wf_frame dated_claims_cleaned.
Proof.
  apply (cleaned_well_formed (P := sample_parser) dated_claims).
  - apply wf_tableb_true. vm_compute. reflexivity.
  - vm_compute. reflexivity.
Defined.

Lemma present_dates_kept_witness :
  cell_of "pd_dt" dated_claims_cleaned
    (Row 3 [Num 4; Ts 1705276800000000000; Ts 1705104000000000000;
            Ts 1704931200000000000])
  = cell_of "pd_dt" (parsed (P := sample_parser) (toPandas dated_claims))
      (Row 3 [Num 4; Ts 1705276800000000000; NA; Ts 1704931200000000000]).
Proof.
  apply (present_dates_kept (P := sample_parser)).
  - apply wf_frameb_true. vm_compute. reflexivity.
  - vm_compute. reflexivity.
  - unfold date_columns. in_list.
  - simpl. in_list.
  - vm_compute. in_list.
  - simpl. in_list.
  - reflexivity.
  - vm_compute. discriminate.
Defined.

Lemma dates_are_timestamps_witness :
  cell_of "clm_adjud_ts" dated_claims_cleaned
    (Row 1 [Num 2; Ts 1704758400000000000; Ts 1704585600000000000;
            Ts 1704585600000000000]) = NA ∨
  ∃ t, cell_of "clm_adjud_ts" dated_claims_cleaned
         (Row 1 [Num 2; Ts 1704758400000000000; Ts 1704585600000000000;
                 Ts 1704585600000000000]) = Ts t.
Proof.
  apply (dates_are_timestamps (P := sample_parser) (toPandas dated_claims)).
  - apply wf_frameb_true. vm_compute. reflexivity.
  - vm_compute. reflexivity.
  - unfold date_columns. in_list.
  - simpl. in_list.
  - simpl. in_list.
Defined.

Lemma text_amount_raises_witness :
  outcome (cleaning (P := sample_parser) (toPandas text_amounts)) = Raise TypeError.
Proof.
  apply (text_amount_raises (P := sample_parser) (toPandas text_amounts)
           (toPandas text_amounts) (Row 1 [Num 2; Str "n/a"]) "n/a").
  - vm_compute. reflexivity.
  - simpl. in_list.
  - simpl. in_list.
  - reflexivity.
Defined.

Lemma get_spark_session_witness :
  [GetOrCreate (Session "adb.example.net" "dapi123" "0101-abc"
                        "/sql/1.0/warehouses/w1")]
  = [GetOrCreate (Session "adb.example.net" "dapi123" "0101-abc"
                          "/sql/1.0/warehouses/w1")] ∧
  (full_environ !! "DATABRICKS_HOST" = Some "adb.example.net" ∧
   "adb.example.net" ≠ "") ∧
  (full_environ !! "DATABRICKS_TOKEN" = Some "dapi123" ∧ "dapi123" ≠ "") ∧
  (full_environ !! "DATABRICKS_CLUSTER_ID" = Some "0101-abc" ∧ "0101-abc" ≠ "") ∧
  (full_environ !! "DATABRICKS_HTTP_PATH" = Some "/sql/1.0/warehouses/w1" ∧
   "/sql/1.0/warehouses/w1" ≠ "").
Proof.
  apply (get_spark_session full_environ
           [GetOrCreate (Session "adb.example.net" "dapi123" "0101-abc"
                                 "/sql/1.0/warehouses/w1")]
           (Session "adb.example.net" "dapi123" "0101-abc"
                    "/sql/1.0/warehouses/w1")).
  vm_compute. reflexivity.
Defined.

Lemma main_writes_cleaned_witness :
  outcome (main (P := sample_parser) repeated_world) = Ok tt ∧
  ∃ s, engine_calls (trace (main (P := sample_parser) repeated_world)) =
       [GetOrCreate s;
        ReadTable (qualified (environ repeated_world) ".fct_claim");
        Count (qualified (environ repeated_world) ".fct_claim");
        ToPandas (qualified (environ repeated_world) ".fct_claim");
        CreateDataFrame repeated_claims_cleaned;
        SaveAsTable (qualified (environ repeated_world) ".cleaned_claims")
                    repeated_claims_cleaned;
        SaveAsTable (qualified (environ repeated_world)
                               ".fct_claim_features_after_datacleanup")
                    repeated_claims_cleaned;
        SparkStop].
Proof.
  apply (main_writes_cleaned (P := sample_parser) repeated_world repeated_claims).
  - apply full_environ_set.
  - vm_compute. reflexivity.
  - reflexivity.
  - vm_compute. reflexivity.
Defined.

Lemma cleaning_error_propagates_witness :
  outcome (main (P := sample_parser) text_world) = Raise TypeError ∧
  (∃ s, engine_calls (trace (main (P := sample_parser) text_world)) =
        [GetOrCreate s;
         ReadTable (qualified (environ text_world) ".fct_claim");
         Count (qualified (environ text_world) ".fct_claim");
         ToPandas (qualified (environ text_world) ".fct_claim")]) ∧
  script (P := sample_parser) text_world
    = (trace (main (P := sample_parser) text_world) ++ [PrintErr TypeError],
       Raise TypeError).
Proof.
  apply (cleaning_error_propagates (P := sample_parser) text_world text_amounts).
  - apply full_environ_set.
  - vm_compute. reflexivity.
  - reflexivity.
  - reflexivity.
  - reflexivity.
  - vm_compute. reflexivity.
Defined.

Lemma missing_table_raises_witness :
  ∃ e s,
    outcome (main (P := sample_parser) bare_world) = Raise e ∧
    (engine_calls (trace (main (P := sample_parser) bare_world)) =
       [GetOrCreate s; ReadTable (qualified (environ bare_world) ".fct_claim")] ∨
     engine_calls (trace (main (P := sample_parser) bare_world)) =
       [GetOrCreate s; ReadTable (qualified (environ bare_world) ".fct_claim");
        Count (qualified (environ bare_world) ".fct_claim")]) ∧
    script (P := sample_parser) bare_world
      = (trace (main (P := sample_parser) bare_world) ++ [PrintErr e], Raise e).
Proof.
  apply (missing_table_raises (P := sample_parser) bare_world).
  - apply full_environ_set.
  - vm_compute. reflexivity.
Defined.

Lemma second_save_fails_witness :
  outcome (main (P := sample_parser) (E := no_feature_engine) repeated_world)
    = Raise (RuntimeError "write failed") ∧
  (∃ s, engine_calls
          (trace (main (P := sample_parser) (E := no_feature_engine) repeated_world)) =
       [GetOrCreate s;
        ReadTable (qualified (environ repeated_world) ".fct_claim");
        Count (qualified (environ repeated_world) ".fct_claim");
        ToPandas (qualified (environ repeated_world) ".fct_claim");
        CreateDataFrame repeated_claims_cleaned;
        SaveAsTable (qualified (environ repeated_world) ".cleaned_claims")
                    repeated_claims_cleaned;
        SaveAsTable (qualified (environ repeated_world)
                               ".fct_claim_features_after_datacleanup")
                    repeated_claims_cleaned]) ∧
  script (P := sample_parser) (E := no_feature_engine) repeated_world
    = (trace (main (P := sample_parser) (E := no_feature_engine) repeated_world)
         ++ [PrintErr (RuntimeError "write failed")],
       Raise (RuntimeError "write failed")).
Proof.
  apply (second_save_fails (P := sample_parser) (E := no_feature_engine)
           repeated_world repeated_claims).
  - apply full_environ_set.
  - vm_compute. reflexivity.
  - vm_compute. reflexivity.
  - reflexivity.
  - reflexivity.
  - reflexivity.
  - reflexivity.
  - vm_compute. reflexivity.
  - vm_compute. reflexivity.
Defined.

Lemma dense_column_kept_witness : "clm_id" ∈ columns sparse_plan_cleaned.
Proof.
  apply (dense_column_kept (P := sample_parser) (toPandas sparse_plan)
           sparse_plan_cleaned 0 "clm_id").
  - apply wf_frameb_true. vm_compute. reflexivity.
  - vm_compute. reflexivity.
  - reflexivity.
  - discriminate.
  - vm_compute. lia.
Defined.

Lemma both_dates_imputed_witness :
  cell_of "pd_dt" dated_claims_cleaned
    (Row 1 [Num 2; Ts 1704758400000000000; Ts 1704585600000000000;
            Ts 1704585600000000000])
  = Ts (1704585600000000000 + Timedelta_days 2) ∧
  cell_of "clm_adjud_ts" dated_claims_cleaned
    (Row 1 [Num 2; Ts 1704758400000000000; Ts 1704585600000000000;
            Ts 1704585600000000000])
  = Ts 1704585600000000000.
Proof.
  apply (both_dates_imputed (P := sample_parser) (toPandas dated_claims)
           dated_claims_cleaned
           (Row 1 [Num 2; NA; NA; Ts 1704585600000000000])).
  - apply wf_frameb_true. vm_compute. reflexivity.
  - vm_compute. reflexivity.
  - simpl. in_list.
  - simpl. in_list.
  - simpl. in_list.
  - vm_compute. in_list.
  - simpl. in_list.
  - reflexivity.
  - vm_compute. reflexivity.
  - vm_compute. reflexivity.
  - vm_compute. reflexivity.
Defined.
